(** * tf-u-net: the data-flow of [u-net.py]

    A shallow embedding of the control flow and array plumbing of
    [src/u-net.py] (function [main]): the mode gate, the tfrecord input
    pipeline, the orientation ensemble ("tumble"), the VALID-padding crop,
    the test / predict consumer loops and the large-image reassembly loop.

    Conventions.
    - Python exceptions are values of [exn]; fallible code lives in the
      [result] monad.
    - float32 / float64 tensors are arrays of exact rationals ([Q]); no
      rounding is modelled.  uint8 data is a [Z] reduced modulo 256.
    - A rank-2 tensor is a list of rows, a rank-3 tensor a list of rows of
      channel vectors, a batch a list of rank-3 tensors.
    - The tensor framework (tf.image.rot90, tf.data, np.argmax, ...) and
      sklearn are external; their operations are written out from their
      documented semantics. *)

From Stdlib Require Import List Bool Arith ZArith QArith Lia String Ascii.
Import ListNotations.

Close Scope Q_scope.
Local Open Scope string_scope.
Local Open Scope list_scope.

(** ** Exceptions and the result monad *)

Inductive exn : Type :=
| NameError            (* a local variable read before assignment *)
| ValueError
| IndexError
| ZeroDivisionError
| OutOfRangeError      (* tf.errors.OutOfRangeError: end of a finite dataset *)
| IOError (what : string).

Inductive result (A : Type) : Type :=
| Ok (a : A)
| Raise (e : exn).

Arguments Ok {A} a.
Arguments Raise {A} e.

Definition bind {A B : Type} (c : result A) (k : A -> result B) : result B :=
  match c with
  | Ok a => k a
  | Raise e => Raise e
  end.

Notation "x <- c ;; k" := (bind c (fun x => k))
  (at level 61, c at next level, right associativity).

Definition of_option {A : Type} (e : exn) (o : option A) : result A :=
  match o with
  | Some a => Ok a
  | None => Raise e
  end.

Fixpoint mapM {A B : Type} (f : A -> result B) (l : list A) : result (list B) :=
  match l with
  | [] => Ok []
  | a :: l' => b <- f a ;; bs <- mapM f l' ;; Ok (b :: bs)
  end.

(** ** Strings and paths *)

(** Python's [needle in hay] on strings: substring test. *)
Fixpoint isin (needle hay : string) : bool :=
  if String.prefix needle hay then true
  else match hay with
       | EmptyString => false
       | String _ rest => isin needle rest
       end.

(** [s.split(sep)] for a one-character separator. *)
Fixpoint split (sep : ascii) (s : string) : list string :=
  match s with
  | EmptyString => [EmptyString]
  | String c r =>
      if Ascii.eqb c sep then EmptyString :: split sep r
      else match split sep r with
           | h :: t => String c h :: t
           | [] => [String c EmptyString]
           end
  end.

Definition os_sep : ascii := "/"%char.

(** [path.split(os.sep)[-1]] *)
Definition last_component (path : string) : string :=
  last (split os_sep path) EmptyString.

(** [os.path.join(a, b)] (posixpath). *)
Definition path_join (a b : string) : string :=
  if String.prefix "/" b then b
  else if (a =? "") || isin "/" (substring (String.length a - 1)%nat 1 a)
       then a ++ b
       else a ++ "/" ++ b.

(** ['.'.join(name.split('.')[:-1]) + '.tif'] of the predict loop. *)
Definition tif_name (image_name : string) : string :=
  String.concat "." (removelast (split "."%char image_name)) ++ ".tif".

(** ** The mode gate of [main] (lines 617-620, 710, 787, 838) *)

Inductive branch : Type :=
| TrainBranch
| TestBranch
| PredictBranch
| LargePredictBranch
| NoBranch.

(** The [if len(image_path_list) > 0:] block and its [if/elif] chain.  The
    tests are tried in source order, [and] short-circuits. *)
Definition main_branch (mode : string) (ckpt_exists : bool)
           (image_path_list : list string) : branch :=
  if (0 <? List.length image_path_list)%nat then
    if mode =? "train" then TrainBranch
    else if isin "test" mode && ckpt_exists then TestBranch
    else if isin "predict" mode && ckpt_exists then PredictBranch
    else if (mode =? "large_predict") && ckpt_exists then LargePredictBranch
    else NoBranch
  else NoBranch.

(** [is_training] as bound by lines 169-190; a mode matching none of the
    tests leaves the name unbound. *)
Definition is_training (mode : string) : option bool :=
  if mode =? "train" then Some true
  else if isin "test" mode then Some false
  else if isin "predict" mode then Some false
  else if mode =? "large_predict" then Some false
  else None.

(** ** Arrays *)

(** A float array of rank 3, indexed [row][column][channel]. *)
Definition array3 : Type := list (list (list Q)).

(** An integer array of rank 2 (a label map) and of rank 3 (an image). *)
Definition labels : Type := list (list Z).
Definition image8 : Type := list (list (list Z)).

Definition get {A : Type} (m : list (list A)) (i j : nat) : option A :=
  match nth_error m i with
  | Some row => nth_error row j
  | None => None
  end.

(** All rows have length [w]. *)
Definition rect {A : Type} (w : nat) (m : list (list A)) : Prop :=
  Forall (fun row => List.length row = w) m.

(** Shape [(h, w, c)] of a rank-3 array. *)
Definition shape3 {A : Type} (h w c : nat) (a : list (list (list A))) : Prop :=
  List.length a = h /\ rect w a /\ Forall (rect c) a.

Definition map2d {A B : Type} (f : A -> B) (m : list (list A)) : list (list B) :=
  map (map f) m.

Definition map3d {A B : Type} (f : A -> B) (a : list (list (list A)))
  : list (list (list B)) :=
  map (map (map f)) a.

Fixpoint zip_with {A B C : Type} (f : A -> B -> C) (l : list A) (l' : list B)
  : list C :=
  match l, l' with
  | x :: r, y :: r' => f x y :: zip_with f r r'
  | _, _ => []
  end.

Fixpoint mapi_from {A B : Type} (f : nat -> A -> B) (i : nat) (l : list A)
  : list B :=
  match l with
  | [] => []
  | x :: r => f i x :: mapi_from f (S i) r
  end.

Definition mapi {A B : Type} (f : nat -> A -> B) (l : list A) : list B :=
  mapi_from f 0 l.

(** [np.zeros((h, w, c))]; a negative dimension is a ValueError. *)
Definition np_zeros (h w : Z) (c : nat) : result array3 :=
  if ((h <? 0) || (w <? 0))%Z then Raise ValueError
  else Ok (repeat (repeat (repeat 0%Q c) (Z.to_nat w)) (Z.to_nat h)).

(** [np.argmax] of a vector: the index of the first occurrence of the
    maximum, [None] (ValueError in numpy) on an empty vector. *)
Fixpoint argmax_from (best : Q) (besti i : nat) (l : list Q) : nat :=
  match l with
  | [] => besti
  | x :: r =>
      if Qle_bool x best then argmax_from best besti (S i) r
      else argmax_from x i (S i) r
  end.

Definition argmax (l : list Q) : option nat :=
  match l with
  | [] => None
  | x :: r => Some (argmax_from x 0 1 r)
  end.

(** [np.argmax(a, axis = 2)] *)
Definition argmax_axis2 (a : array3) : result labels :=
  mapM (mapM (fun px =>
                of_option ValueError (option_map Z.of_nat (argmax px))))
       a.

(** [division_mask[division_mask == 0] = 1] *)
Definition replace_zeros (division_mask : array3) : array3 :=
  map3d (fun d => if Qeq_bool d 0 then 1%Q else d) division_mask.

(** [mask / division_mask], elementwise on arrays of one shape. *)
Definition divide (mask division_mask : array3) : array3 :=
  zip_with (zip_with (zip_with Qdiv)) mask division_mask.

(** [image[image >= 0.5] = 1] followed by [image[image < 0.5] = 0], on an
    integer label map. *)
Definition threshold (image : labels) : labels :=
  let image1 :=
    map2d (fun v => if Qle_bool (1#2) (inject_Z v) then 1%Z else v) image in
  map2d (fun v => if negb (Qle_bool (1#2) (inject_Z v)) then 0%Z else v)
        image1.

(** [np.stack((image, image, image), axis = 2)] *)
Definition stack3 (image : labels) : image8 :=
  map2d (fun v => [v; v; v]) image.

(** [image.astype('uint8')] *)
Definition astype_uint8 (image : image8) : image8 :=
  map3d (fun v => (v mod 256)%Z) image.

(** ** The large-image reassembly loop (lines 863-914) *)

(** The locals [mask], [division_mask] and [large_image_output_name] are
    assigned together in the identifier-change block (lines 893-902) and
    nowhere else: they are bound, or unbound, together. *)
Record accumulator : Type := {
  mask : array3;
  division_mask : array3;
  large_image_output_name : string
}.

(** What the loop has in hand between two tiles; [saved] is the sequence of
    [image.save(name)] calls so far, oldest first. *)
Record state : Type := {
  curr_image_name : string;
  live : option accumulator;
  saved : list (string * image8)
}.

(** Entry [i] of one iteration of [image_generator] together with row [i]
    of [prediction]. *)
Record tile_input : Type := {
  image_path : string;          (* image_names[i] *)
  coords : nat * nat;           (* coords[i] = (h_1, w_1) *)
  shapes : Z * Z;               (* shapes[i][0:2] *)
  tile : array3                 (* prediction[i,:,:] *)
}.

Fixpoint add_vec (px t : list Q) : list Q :=
  match px, t with
  | v :: px', x :: t' => (v + x)%Q :: add_vec px' t'
  | _, _ => px
  end.

(** Pixel of [tile] lying over accumulator position [(r, c)] when the tile
    origin is [(h_1, w_1)]. *)
Definition tile_at (h_1 w_1 : nat) (tile : array3) (r c : nat)
  : option (list Q) :=
  if (h_1 <=? r)%nat && (w_1 <=? c)%nat then get tile (r - h_1) (c - w_1)
  else None.

(** Modelled from the spec: [remap_tiles] is defined in [unet_utilities],
    which is not among the sources.  Section 4.4:
    [mask[origin_row : origin_row+tile_h, origin_col : origin_col+tile_w, :]
    += tile_prediction], and the same region of [division_mask] is
    incremented by 1 elementwise.  Tile pixels falling outside the
    accumulator are ignored. *)
Definition remap_tiles (a : accumulator) (h_1 w_1 : nat) (tile : array3)
  : accumulator :=
  {| mask :=
       mapi (fun r => mapi (fun c px =>
         match tile_at h_1 w_1 tile r c with
         | Some t => add_vec px t
         | None => px
         end)) (mask a);
     division_mask :=
       mapi (fun r => mapi (fun c px =>
         match tile_at h_1 w_1 tile r c with
         | Some _ => map (fun d => (d + 1)%Q) px
         | None => px
         end)) (division_mask a);
     large_image_output_name := large_image_output_name a |}.

(** Lines 882-883 and 907-908: the in-place repair of [division_mask],
    then the label map. *)
Definition normalise (a : accumulator) : accumulator :=
  {| mask := mask a;
     division_mask := replace_zeros (division_mask a);
     large_image_output_name := large_image_output_name a |}.

Definition label_map (a : accumulator) : result labels :=
  argmax_axis2 (divide (mask a) (division_mask a)).

(** Lines 882-887: the flush taken when the identifier changes. *)
Definition flush_on_change (a : accumulator)
  : result (accumulator * (string * image8)) :=
  let a' := normalise a in
  image <- label_map a' ;;
  Ok (a', (large_image_output_name a', astype_uint8 (stack3 image))).

(** Lines 907-914: the flush at the end of each batch. *)
Definition flush_end_of_batch (a : accumulator)
  : result (accumulator * (string * image8)) :=
  let a' := normalise a in
  image <- label_map a' ;;
  Ok (a',
      (large_image_output_name a', astype_uint8 (stack3 (threshold image)))).

(** Lines 889-902: a fresh accumulator for [image_name]. *)
Definition allocate (padding : string) (n_classes : nat)
           (large_prediction_output image_name : string) (shape : Z * Z)
  : result accumulator :=
  let '(final_height, final_width) := shape in
  let '(final_height, final_width) :=
    if padding =? "VALID" then ((final_height - 184)%Z, (final_width - 184)%Z)
    else (final_height, final_width) in
  mask <- np_zeros final_height final_width n_classes ;;
  division_mask <- np_zeros final_height final_width n_classes ;;
  Ok {| mask := mask;
        division_mask := division_mask;
        large_image_output_name :=
          path_join large_prediction_output image_name |}.

Section LargePredict.

Variable padding : string.
Variable n_classes : nat.
Variable large_prediction_output : string.

(** Lines 879-905: the body of [for i in range(prediction.shape[0])]. *)
Definition process_tile (st : state) (t : tile_input) : result state :=
  let image_name := last_component (image_path t) in
  st1 <-
    (if negb (image_name =? curr_image_name st) then
       saved1 <-
         (if negb (curr_image_name st =? "") then
            a <- of_option NameError (live st) ;;
            f <- flush_on_change a ;;
            Ok (saved st ++ [snd f])
          else Ok (saved st)) ;;
       a <- allocate padding n_classes large_prediction_output image_name
                     (shapes t) ;;
       Ok {| curr_image_name := image_name;
             live := Some a;
             saved := saved1 |}
     else Ok st) ;;
  let '(h_1, w_1) := coords t in
  a <- of_option NameError (live st1) ;;
  Ok {| curr_image_name := curr_image_name st1;
        live := Some (remap_tiles a h_1 w_1 (tile t));
        saved := saved st1 |}.

Fixpoint process_tiles (st : state) (ts : list tile_input) : result state :=
  match ts with
  | [] => Ok st
  | t :: ts' => st' <- process_tile st t ;; process_tiles st' ts'
  end.

(** Lines 866-914: one iteration of [for batch, ... in image_generator].
    [np.stack(batch, 0)] refuses an empty batch. *)
Definition process_batch (st : state) (batch : list tile_input)
  : result state :=
  match batch with
  | [] => Raise ValueError
  | _ =>
      st1 <- process_tiles st batch ;;
      a <- of_option NameError (live st1) ;;
      f <- flush_end_of_batch a ;;
      Ok {| curr_image_name := curr_image_name st1;
            live := Some (fst f);
            saved := saved st1 ++ [snd f] |}
  end.

Fixpoint process_batches (st : state) (bs : list (list tile_input))
  : result state :=
  match bs with
  | [] => Ok st
  | b :: bs' => st' <- process_batch st b ;; process_batches st' bs'
  end.

(** Line 863 and the loop. *)
Definition large_predict (image_generator : list (list tile_input))
  : result state :=
  process_batches {| curr_image_name := ""; live := None; saved := [] |}
                  image_generator.

End LargePredict.


(** ** Geometry: flips, transposition and quarter turns *)

Section Geometry.

Context {A : Type}.

(** [tf.image.flip_left_right] / [reverse(image, axis = [1])] *)
Definition flip_left_right (image : list (list A)) : list (list A) :=
  map (@rev A) image.

(** Column [j]: the entries at index [j] of the rows that have one. *)
Fixpoint col (j : nat) (image : list (list A)) : list A :=
  match image with
  | [] => []
  | row :: rest =>
      match nth_error row j with
      | Some x => x :: col j rest
      | None => col j rest
      end
  end.

Definition width (image : list (list A)) : nat :=
  match image with
  | [] => 0
  | row :: _ => List.length row
  end.

(** [tf.transpose(image, [1, 0, 2])] *)
Definition transpose (image : list (list A)) : list (list A) :=
  map (fun j => col j image) (seq 0 (width image)).

(** [tf.image.rot90(image, k)]: [k mod 4] counter-clockwise quarter turns,
    with the framework's three cases
    [transpose(reverse(image, [1]))], [reverse(image, [0, 1])] and
    [reverse(transpose(image), [1])]. *)
Definition rot90 (image : list (list A)) (k : Z) : list (list A) :=
  match (k mod 4)%Z with
  | 1%Z => transpose (flip_left_right image)
  | 2%Z => rev (flip_left_right image)
  | 3%Z => flip_left_right (transpose image)
  | _ => image
  end.

End Geometry.

(** Static shape of a rank-3 tensor, read off its first row and pixel. *)
Definition shape_of {A : Type} (a : list (list (list A))) : nat * nat * nat :=
  (List.length a,
   width a,
   match a with
   | (px :: _) :: _ => List.length px
   | _ => 0%nat
   end).

Definition shape_eqb (s s' : nat * nat * nat) : bool :=
  let '(h, w, c) := s in
  let '(h', w', c') := s' in
  (h =? h')%nat && (w =? w')%nat && (c =? c')%nat.

Definition same_shapes {A : Type} (l : list (list (list (list A)))) : bool :=
  match l with
  | [] => true
  | x :: r => forallb (fun y => shape_eqb (shape_of y) (shape_of x)) r
  end.

(** [tf.concat(parts, axis = 0)]: the parts must agree on every other axis. *)
Definition tf_concat {A : Type} (parts : list (list (list (list (list A)))))
  : result (list (list (list (list A)))) :=
  if same_shapes (List.concat parts) then Ok (List.concat parts)
  else Raise ValueError.

(** [tf.stack(l, axis = 0)] *)
Definition tf_stack {A : Type} (l : list (list (list (list A))))
  : result (list (list (list (list A)))) :=
  if same_shapes l then Ok l else Raise ValueError.

Definition add3 (a b : array3) : array3 :=
  zip_with (zip_with (zip_with Qplus)) a b.

(** [tf.reduce_mean(network, axis = 0, keepdims = True)] *)
Definition reduce_mean0 (network : list array3) : list array3 :=
  match network with
  | [] => [[]]
  | x :: r =>
      [map3d (fun s => (s / inject_Z (Z.of_nat (List.length network)))%Q)
             (fold_left add3 r x)]
  end.

(** ** The orientation ensemble (lines 316-328 and 409-427) *)

(** Lines 316-328: the batch handed to the network in a tumble mode. *)
Definition tumble_inputs {A : Type} (inputs : list (list (list (list A))))
  : result (list (list (list (list A)))) :=
  let flipped_inputs := map flip_left_right inputs in
  tf_concat
    [inputs;
     map (fun x => rot90 x 1) inputs;
     map (fun x => rot90 x 2) inputs;
     map (fun x => rot90 x 3) inputs;
     flipped_inputs;
     map (fun x => rot90 x 1) flipped_inputs;
     map (fun x => rot90 x 2) flipped_inputs;
     map (fun x => rot90 x 3) flipped_inputs].

(** [network[i,:,:,:]] *)
Definition index0 {A : Type} (network : list A) (i : nat) : result A :=
  of_option IndexError (nth_error network i).

(** Lines 409-427: the aligned predictions and their mean. *)
Definition tumble_prediction (network : list array3) : result (list array3) :=
  let flipped_prediction := map flip_left_right (skipn 4 network) in
  let network := firstn 4 network in
  n0 <- index0 network 0 ;;
  n1 <- index0 network 1 ;;
  n2 <- index0 network 2 ;;
  n3 <- index0 network 3 ;;
  f0 <- index0 flipped_prediction 0 ;;
  f1 <- index0 flipped_prediction 1 ;;
  f2 <- index0 flipped_prediction 2 ;;
  f3 <- index0 flipped_prediction 3 ;;
  let pred_list :=
    [n0;
     rot90 n1 (-1);
     rot90 n2 (-2);
     rot90 n3 (-3);
     f0;
     rot90 f1 1;
     rot90 f2 (-2);
     rot90 f3 (-1)] in
  network <- tf_stack pred_list ;;
  Ok (reduce_mean0 network).

(** [tf.image.convert_image_dtype(inputs, tf.float32)] (line 330) on uint8
    data: every value is divided by 255. *)
Definition convert_image_dtype (image : image8) : array3 :=
  map3d (fun v => (inject_Z v / 255)%Q) image.

(** Lines 316-330 and 409-427 around a network [u_net]. *)
Definition tumble (u_net : list array3 -> list array3) (inputs : list image8)
  : result (list array3) :=
  inputs <- tumble_inputs inputs ;;
  let inputs := map convert_image_dtype inputs in
  tumble_prediction (u_net inputs).

(** Elementwise equality of float arrays, up to the representation of
    rationals. *)
Definition array3_eq (a b : array3) : Prop :=
  Forall2 (Forall2 (Forall2 Qeq)) a b.

(** ** The padding block (lines 332-352) *)

(** Bound of a Python slice on a sequence of length [len]. *)
Definition slice_bound (len : nat) (i : Z) : nat :=
  if (i <? 0)%Z then Z.to_nat (Z.max 0 (Z.of_nat len + i))
  else Nat.min (Z.to_nat i) len.

(** [l[start:stop]] *)
Definition py_slice {A : Type} (start stop : Z) (l : list A) : list A :=
  let s := slice_bound (List.length l) start in
  let e := slice_bound (List.length l) stop in
  firstn (e - s) (skipn s l).

(** [t[:, 92:(input_height - 92), 92:(input_width - 92), :]] *)
Definition crop92 {A : Type} (input_height input_width : Z)
           (t : list (list (list A))) : list (list (list A)) :=
  map (fun image =>
         map (py_slice 92 (input_width - 92))
             (py_slice 92 (input_height - 92) image)) t.

Record padding_block : Type := {
  net_x : option Z;
  net_y : option Z;
  truth_out : list array3;
  weights_out : list array3;
  crop : bool
}.

(** Lines 332-352.  [is_training] is read in the VALID branch only;
    [resize] is the module-level flag, and its branch reads the name
    [images], which is bound nowhere. *)
Definition apply_padding (padding : string) (resize : bool) (mode : string)
           (input_height input_width : Z) (truth weights : list array3)
  : result padding_block :=
  if padding =? "VALID" then
    training <- of_option NameError (is_training mode) ;;
    Ok {| net_x := Some (input_height - 184)%Z;
          net_y := Some (input_width - 184)%Z;
          truth_out :=
            if training then crop92 input_height input_width truth else truth;
          weights_out :=
            if training then crop92 input_height input_width weights
            else weights;
          crop := true |}
  else if resize then Raise NameError
  else Ok {| net_x := None;
             net_y := None;
             truth_out := truth;
             weights_out := weights;
             crop := false |}.

(** ** The tfrecord input pipeline (lines 192-240) *)

Record sample : Type := {
  sample_image : image8;        (* uint8 [input_height, input_width, 3] *)
  sample_mask : image8;         (* uint8 [input_height, input_width, n_classes] *)
  sample_weights : array3       (* float32 [input_height, input_width, 1] *)
}.

(** [tf.reduce_sum] of a uint8 tensor: the sum is a uint8 as well. *)
Definition reduce_sum_uint8 (t : image8) : Z :=
  (fold_right Z.add 0%Z (List.concat (List.concat t)) mod 256)%Z.

(** Lines 218-219. *)
Definition predicate (s : sample) : bool :=
  (reduce_sum_uint8 (sample_mask s) >? 1)%Z.

Fixpoint batch_fuel {A : Type} (fuel size : nat) (l : list A) : list (list A) :=
  match fuel with
  | O => []
  | S fuel' =>
      match l with
      | [] => []
      | _ => firstn size l :: batch_fuel fuel' size (skipn size l)
      end
  end.

(** [dataset.batch(batch_size)]: consecutive groups of [batch_size]
    elements, the last one possibly shorter. *)
Definition tf_batch {A : Type} (batch_size : nat) (l : list A)
  : result (list (list A)) :=
  match batch_size with
  | O => Raise ValueError
  | _ => Ok (batch_fuel (List.length l) batch_size l)
  end.

Section TfRecord.

Context {Serialized : Type}.
Variable parse_example : Serialized -> sample.

(** Lines 227-236 for [mode == 'test']: neither [repeat] nor [shuffle]
    is applied; [records] is what the interleaved files deliver. *)
Definition test_dataset (truth_only : bool) (batch_size : nat)
           (records : list Serialized) : result (list (list sample)) :=
  let dataset := map parse_example records in
  let dataset := if truth_only then filter predicate dataset else dataset in
  tf_batch batch_size dataset.

End TfRecord.

(** ** The consumer loops of test and predict (lines 726-750, 806-832) *)

(** [while keep_going == True: try: <body> except: keep_going = False],
    the shape of both loops.
    Each element of [sess_run] is what one call of [sess.run] does; past the
    end of the list the dataset is exhausted and the call raises
    [OutOfRangeError].  [body] returns the loop variables as it left them
    and the exception, if any, that interrupted it. *)
Fixpoint while_try {V R : Type} (body : V -> R -> V * option exn) (v : V)
         (sess_run : list (result R)) : result V :=
  match sess_run with
  | [] => Ok v
  | Raise _ :: _ => Ok v
  | Ok r :: rest =>
      match body v r with
      | (v', None) => while_try body v' rest
      | (v', Some _) => Ok v'
      end
  end.

Record test_run : Type := {
  img : list array3;            (* prob_net, [N, H, W, n_classes] *)
  truth : list labels;          (* binarized_truth, [N, H, W] *)
  test_elapsed : Q              (* b - a *)
}.

Record test_vars : Type := {
  all_probs : list (list Q);
  all_true : list (list Z);
  test_time_list : list Q
}.

(** [img[:,:,:,1].flatten()] *)
Definition channel1_flat (img : list array3) : result (list Q) :=
  mapM (fun px => of_option IndexError (nth_error px 1))
       (List.concat (List.concat img)).

(** [truth.flatten()] *)
Definition flatten (truth : list labels) : list Z :=
  List.concat (List.concat truth).

(** Lines 735-747. *)
Definition test_body (v : test_vars) (r : test_run) : test_vars * option exn :=
  match channel1_flat (img r) with
  | Raise e => (v, Some e)
  | Ok probabilities =>
      let v1 := {| all_probs := all_probs v ++ [probabilities];
                   all_true := all_true v ++ [flatten (truth r)];
                   test_time_list := test_time_list v |} in
      match List.length (img r) with
      | O => (v1, Some ZeroDivisionError)
      | S _ =>
          ({| all_probs := all_probs v1;
              all_true := all_true v1;
              test_time_list :=
                test_time_list v1 ++
                [(test_elapsed r / inject_Z (Z.of_nat (List.length (img r))))%Q] |},
           None)
      end
  end.

Definition test_loop (sess_run : list (result test_run)) : result test_vars :=
  while_try test_body
            {| all_probs := []; all_true := []; test_time_list := [] |}
            sess_run.

(** [len(np.unique(a))] *)
Definition n_unique (a : list Z) : nat :=
  List.length (nodup Z.eq_dec a).

(** [b >= 0.5] *)
Definition ge_half (b : list Q) : list Q :=
  map (fun p => if Qle_bool (1#2) p then 1%Q else 0%Q) b.

(** The comprehensions of lines 752-760:
    [[metric(a, f(b)) for a, b in zip(all_true, all_probs)
      if len(np.unique(a)) == 2]]. *)
Definition per_image (metric : list Z -> list Q -> result Q)
           (f : list Q -> list Q) (v : test_vars) : result (list Q) :=
  mapM (fun ab => metric (fst ab) (f (snd ab)))
       (filter (fun ab => (n_unique (fst ab) =? 2)%nat)
               (combine (all_true v) (all_probs v))).

Record predict_run : Type := {
  prediction : list (array3 * string);   (* prediction[i], im_names[i] *)
  predict_elapsed : Q
}.

Record predict_vars : Type := {
  predict_time_list : list Q;
  tif_saved : list (string * array3)
}.

(** Lines 811-829. *)
Definition predict_body (prediction_output : string) (v : predict_vars)
           (r : predict_run) : predict_vars * option exn :=
  match List.length (prediction r) with
  | O => (v, Some ZeroDivisionError)
  | S _ =>
      ({| predict_time_list :=
            predict_time_list v ++
            [(predict_elapsed r
              / inject_Z (Z.of_nat (List.length (prediction r))))%Q];
          tif_saved :=
            tif_saved v ++
            map (fun p => (path_join prediction_output
                                     (tif_name (last_component (snd p))),
                           fst p))
                (prediction r) |},
       None)
  end.

Definition predict_loop (prediction_output : string)
           (sess_run : list (result predict_run)) : result predict_vars :=
  while_try (predict_body prediction_output)
            {| predict_time_list := []; tif_saved := [] |}
            sess_run.

(** ** The guarded tail of [main] (lines 617-920) *)

(** What a run leaves behind.  A branch that raises reports the exception
    only, not the effects that preceded it. *)
Inductive effect : Type :=
| MakeDirs (path : string)
| Restore (checkpoint_path : string)
| TrainStep (i : Z)
| LogStep (i : Z)
| AddSummary (i : Z)
| SaveCheckpoint (path : string) (i : Z)
| LogTest (iou auc f1s : Q) (iou_list auc_list f1s_list time_list : list Q)
| SaveTif (name : string) (image : array3)
| SaveImage (name : string) (image : image8)
| LogTime (time_list : list Q).

(** [i % n == 0 or i == 1]; [%] by zero raises. *)
Definition every (i n : Z) : result bool :=
  if (n =? 0)%Z then Raise ZeroDivisionError
  else Ok (((i mod n =? 0) || (i =? 1))%Z).

Section Main.

Variable mode : string.
Variable ckpt_exists : bool.
Variable image_path_list : list string.
Variable checkpoint_path : string.
Variable save_checkpoint_folder save_summary_folder : string.
Variable prediction_output large_prediction_output : string.
Variable padding : string.
Variable n_classes : nat.
Variable number_of_steps : nat.
Variable log_every_n_steps save_summary_steps save_checkpoint_steps : Z.

(** sklearn's metrics and what the session delivers to each loop. *)
Variable jaccard_score roc_auc_score f1_score : list Z -> list Q -> result Q.
Variable test_sess_run : list (result test_run).
Variable predict_sess_run : list (result predict_run).
Variable image_generator : list (list tile_input).

Definition CHECKPOINT_PATH : string :=
  path_join save_checkpoint_folder "my_u-net.ckpt".

(** Lines 667-700: one iteration of the training loop. *)
Definition train_step (i : Z) : result (list effect) :=
  log <- every i log_every_n_steps ;;
  summary <- every i save_summary_steps ;;
  checkpoint <-
    (if summary then every i save_checkpoint_steps else Ok false) ;;
  Ok ([TrainStep i]
      ++ (if log then [LogStep i] else [])
      ++ (if summary then [AddSummary i] else [])
      ++ (if checkpoint then [SaveCheckpoint CHECKPOINT_PATH i] else [])).

(** Lines 628-708.  After the loop [i] is the last index; with no step
    taken it is unbound. *)
Definition train_branch : result (list effect) :=
  steps <- mapM train_step (map Z.of_nat (seq 0 number_of_steps)) ;;
  match number_of_steps with
  | O => Raise NameError
  | S last =>
      Ok ([MakeDirs save_checkpoint_folder; MakeDirs save_summary_folder]
          ++ (if ckpt_exists then [Restore checkpoint_path] else [])
          ++ List.concat steps
          ++ [AddSummary (Z.of_nat last);
              SaveCheckpoint CHECKPOINT_PATH (Z.of_nat last)])
  end.

(** [np.array(l).flatten()] of a list of equally long vectors. *)
Definition flatten_all {A : Type} (l : list (list A)) : result (list A) :=
  match l with
  | [] => Ok []
  | x :: r =>
      if forallb (fun y => (List.length y =? List.length x)%nat) r
      then Ok (List.concat l)
      else Raise ValueError
  end.

(** Lines 719-785. *)
Definition test_branch : result (list effect) :=
  v <- test_loop test_sess_run ;;
  iou_list <- per_image jaccard_score ge_half v ;;
  auc_list <- per_image roc_auc_score (fun b => b) v ;;
  f1s_list <- per_image f1_score ge_half v ;;
  probs <- flatten_all (all_probs v) ;;
  trues <- flatten_all (all_true v) ;;
  iou <- jaccard_score trues (ge_half probs) ;;
  auc <- roc_auc_score trues (ge_half probs) ;;
  f1s <- f1_score trues (ge_half probs) ;;
  Ok [Restore checkpoint_path;
      LogTest iou auc f1s iou_list auc_list f1s_list (test_time_list v)].

(** Lines 788-836. *)
Definition predict_branch : result (list effect) :=
  v <- predict_loop prediction_output predict_sess_run ;;
  Ok ([MakeDirs prediction_output; Restore checkpoint_path]
      ++ map (fun s => SaveTif (fst s) (snd s)) (tif_saved v)
      ++ [LogTime (predict_time_list v)]).

(** Lines 839-920. *)
Definition large_predict_branch : result (list effect) :=
  st <- large_predict padding n_classes large_prediction_output
                      image_generator ;;
  Ok ([MakeDirs large_prediction_output]
      ++ (if negb (prediction_output =? "no_path")
          then [MakeDirs prediction_output] else [])
      ++ [Restore checkpoint_path]
      ++ map (fun s => SaveImage (fst s) (snd s)) (saved st)).

(** Lines 617-920. *)
Definition main_tail : result (list effect) :=
  match main_branch mode ckpt_exists image_path_list with
  | TrainBranch => train_branch
  | TestBranch => test_branch
  | PredictBranch => predict_branch
  | LargePredictBranch => large_predict_branch
  | NoBranch => Ok []
  end.

End Main.

(** ** Specification predicates *)

(** [out] is [t] with 92 rows and 92 columns removed on every side. *)
Definition cropped_by_92 {A : Type} (h w : nat)
           (t out : list (list (list A))) : Prop :=
  Forall2 (fun image image' =>
             forall i j, (i < h - 184)%nat -> (j < w - 184)%nat ->
                         get image' i j = get image (i + 92) (j + 92))
          t out.


Definition both_classes (a : list Z) : bool :=
  existsb (Z.eqb 0) a && existsb (Z.eqb 1) a.

(** [i] is the position of the first maximum of [l]. *)
Definition first_max (l : list Q) (i : nat) : Prop :=
  exists x,
    nth_error l i = Some x
    /\ (forall j y, nth_error l j = Some y -> (y <= x)%Q)
    /\ (forall j y, (j < i)%nat -> nth_error l j = Some y -> (y < x)%Q).







(** ** Example inputs *)

(** A 2 x 2 sample over two classes whose mask marks one pixel, in the
    channel of class 1, and nothing else. *)
Definition one_positive_pixel : sample :=
  {| sample_image := [[[0; 0; 0]; [0; 0; 0]]; [[0; 0; 0]; [0; 0; 0]]]%Z;
     sample_mask := [[[0; 0]; [0; 0]]; [[0; 0]; [0; 1]]]%Z;
     sample_weights := [[[1]; [1]]; [[1]; [1]]]%Q |}.

(** A 1 x 1 one-hot mask over two classes whose pixel is of class 1. *)
Definition one_hot_pixel : sample :=
  {| sample_image := [[[0; 0; 0]]]%Z;
     sample_mask := [[[0; 1]]]%Z;
     sample_weights := [[[1]]]%Q |}.

(** One [sess.run] of the test loop over a batch of two 1 x 2 images: the
    first has class 0 only, the second has both classes. *)
Definition mixed_batch : test_run :=
  {| img := [ [[[1#1; 0#1]; [1#1; 0#1]]]; [[[1#1; 0#1]; [0#1; 1#1]]] ]%Q;
     truth := [ [[0; 0]]; [[0; 1]] ]%Z;
     test_elapsed := 1%Q |}.

(** A stand-in metric that reports how many ground-truth pixels it was
    given. *)
Definition pixels_scored (a : list Z) (b : list Q) : result Q :=
  Ok (inject_Z (Z.of_nat (List.length a))).

(** A metric that, like [roc_auc_score], refuses a ground truth with one
    class only. *)
Definition needs_both_classes (a : list Z) (b : list Q) : result Q :=
  if both_classes a then Ok (inject_Z (Z.of_nat (List.length a)))
  else Raise ValueError.

(** A 1 x 1 accumulator over three classes whose pixel is of class 2. *)
Definition three_class_accumulator : accumulator :=
  {| mask := [[[0; 0; 1]]]%Q;
     division_mask := [[[1; 1; 1]]]%Q;
     large_image_output_name := "out/A.png" |}.






(** Two 2 x 2 images with three channels. *)
Definition image_1 : image8 :=
  [[[10; 11; 12]; [20; 21; 22]]; [[30; 31; 32]; [40; 41; 42]]]%Z.

Definition image_2 : image8 :=
  [[[50; 51; 52]; [60; 61; 62]]; [[70; 71; 72]; [80; 81; 82]]]%Z.

(** ** Further parts of [main] *)

(** [c in s] for one character. *)
Fixpoint has (c : ascii) (s : string) : bool :=
  match s with
  | EmptyString => false
  | String d r => Ascii.eqb d c || has c r
  end.








(** Line 225: the cycle length of the interleaved tfrecord files,
    [np.maximum(np.minimum(len(image_path_list)//10, 50), 1)]. *)
Definition cycle_length (image_path_list : list string) : Z :=
  Z.max (Z.min (Z.of_nat (List.length image_path_list) / 10) 50) 1.

(** Lines 283-284: [epochs * int(len(image_path_list)/batch_size)] replaces
    [number_of_steps] when [epochs] is given. *)
Definition steps_from_epochs (epochs : option Z) (number_of_steps : Z)
           (image_path_list : list string) (batch_size : Z) : result Z :=
  match epochs with
  | None => Ok number_of_steps
  | Some e =>
      if (batch_size =? 0)%Z then Raise ZeroDivisionError
      else Ok (e * Z.quot (Z.of_nat (List.length image_path_list)) batch_size)%Z
  end.

(** [tf.argmax(t, axis = -1)] on one pixel; on a tie the first index. *)
Definition tf_argmax (px : list Q) : result Z :=
  of_option ValueError (option_map Z.of_nat (argmax px)).

(** [t[:,:,:,k]] on one pixel. *)
Definition channel (px : list Q) (k : nat) : result Q :=
  of_option IndexError (nth_error px k).

(** Lines 429-437 on one pixel of [prediction_network].  For a number of
    classes other than 2 and 3 the name is never bound, which shows where
    it is read. *)
Definition binarized_network (n_classes : nat) (px : list Q) : result Z :=
  if (n_classes =? 2)%nat then tf_argmax px
  else if (n_classes =? 3)%nat then
    i <- tf_argmax px ;;
    p2 <- channel px 2 ;;
    p1 <- channel px 1 ;;
    Ok (if negb (Qle_bool p2 p1) then 0%Z else i)
  else Raise NameError.



(** ** Specification predicates for the further parts *)

(** Entry [i] of [px] is strictly above all the others. *)
Definition strict_max (px : list Q) (i : nat) : Prop :=
  exists x,
    nth_error px i = Some x
    /\ forall j y, j <> i -> nth_error px j = Some y -> (y < x)%Q.


(** ** Example inputs for the further parts *)

(** A 1 x 1 prediction over two classes. *)
Definition image_1_prediction : array3 := [[[1#4; 3#4]]]%Q.

(** A run of the test loop whose probability maps and ground truth have
    the same number of pixels. *)
Definition same_pixels (r : test_run) : Prop :=
  List.length (List.concat (List.concat (img r)))
  = List.length (flatten (truth r)).

(** The loop variables of the test loop stay aligned. *)
Definition aligned (v : test_vars) : Prop :=
  Forall2 (fun p t => List.length p = List.length t)
          (all_probs v) (all_true v).

(** * Properties *)

(** ** The mode gate *)

Lemma main_branch_empty mode ckpt_exists :
  main_branch mode ckpt_exists [] = NoBranch.
Proof. reflexivity. Qed.

Lemma main_branch_no_checkpoint mode l :
  mode <> "train" -> main_branch mode false l = NoBranch.
Proof.
  intros Hmode. unfold main_branch.
  destruct (0 <? List.length l)%nat; [|reflexivity].
  apply String.eqb_neq in Hmode. rewrite Hmode.
  now rewrite !andb_false_r.
Qed.

Lemma main_branch_train ckpt_exists l :
  l <> [] -> main_branch "train" ckpt_exists l = TrainBranch.
Proof.
  intros Hl. unfold main_branch.
  destruct l as [|p l]; [contradiction|reflexivity].
Qed.

Lemma inference_mode_not_train mode :
  isin "test" mode || isin "predict" mode || (mode =? "large_predict") = true ->
  mode <> "train".
Proof. intros H ->. discriminate H. Qed.

(** The [elif 'predict' in mode] test comes first and holds for
    ["large_predict"]: the fourth branch is never selected. *)
Lemma large_predict_branch_shadowed mode ckpt_exists l :
  main_branch mode ckpt_exists l <> LargePredictBranch.
Proof.
  unfold main_branch.
  destruct (0 <? List.length l)%nat; [|discriminate].
  destruct (mode =? "train"); [discriminate|].
  destruct (isin "test" mode && ckpt_exists); [discriminate|].
  destruct (isin "predict" mode && ckpt_exists) eqn:Hp; [discriminate|].
  destruct (String.eqb_spec mode "large_predict") as [->|_]; [|discriminate].
  simpl in Hp. rewrite Hp. discriminate.
Qed.

Section Gate.

Variables (mode : string) (image_path_list : list string).
Variables (checkpoint_path save_checkpoint_folder save_summary_folder : string).
Variables (prediction_output large_prediction_output padding : string).
Variables (n_classes number_of_steps : nat).
Variables (log_every_n_steps save_summary_steps save_checkpoint_steps : Z).
Variables (jaccard_score roc_auc_score f1_score : list Z -> list Q -> result Q).
Variable test_sess_run : list (result test_run).
Variable predict_sess_run : list (result predict_run).
Variable image_generator : list (list tile_input).

(** C6: in a test, predict or large_predict mode a loop body is entered
    only when the checkpoint index file exists; without it the guarded
    tail does nothing and raises nothing.  Train mode is selected, and its
    branch run, whether or not the checkpoint exists. *)
Theorem checkpoint_gate :
  isin "test" mode || isin "predict" mode || (mode =? "large_predict") = true ->
  (forall ckpt_exists,
      main_branch mode ckpt_exists image_path_list <> NoBranch ->
      ckpt_exists = true)
  /\ main_tail mode false image_path_list checkpoint_path
               save_checkpoint_folder save_summary_folder prediction_output
               large_prediction_output padding n_classes number_of_steps
               log_every_n_steps save_summary_steps save_checkpoint_steps
               jaccard_score roc_auc_score f1_score test_sess_run
               predict_sess_run image_generator
     = Ok []
  /\ (forall ckpt_exists,
         image_path_list <> [] ->
         main_branch "train" ckpt_exists image_path_list = TrainBranch
         /\ main_tail "train" ckpt_exists image_path_list checkpoint_path
                      save_checkpoint_folder save_summary_folder
                      prediction_output large_prediction_output padding
                      n_classes number_of_steps log_every_n_steps
                      save_summary_steps save_checkpoint_steps jaccard_score
                      roc_auc_score f1_score test_sess_run predict_sess_run
                      image_generator
            = train_branch ckpt_exists checkpoint_path save_checkpoint_folder
                           save_summary_folder number_of_steps
                           log_every_n_steps save_summary_steps
                           save_checkpoint_steps).
Proof.
  intros Hmode. apply inference_mode_not_train in Hmode.
  repeat split.
  - intros [|] Hb; [reflexivity|].
    now rewrite main_branch_no_checkpoint in Hb.
  - unfold main_tail. now rewrite main_branch_no_checkpoint.
  - now apply main_branch_train.
  - unfold main_tail. now rewrite main_branch_train.
Qed.


End Gate.

Lemma checkpoint_gate_witness :
  main_branch "tumble_test" false ["a.png"] = NoBranch
  /\ main_branch "train" false ["a.png"] = TrainBranch.
Proof.
  pose proof (checkpoint_gate "tumble_test" ["a.png"] "ckpt" "ckpts" "sums"
                "out" "large" "SAME" 2 1 1%Z 1%Z 1%Z
                (fun _ _ => Ok 0%Q) (fun _ _ => Ok 0%Q) (fun _ _ => Ok 0%Q)
                [] [] [] eq_refl) as [_ [_ Htrain]].
  split; [reflexivity|].
  apply (Htrain false). discriminate.
Defined.

(** ** Shapes *)

Lemma rect_nth_error {A : Type} (w : nat) (m : list (list A)) i row :
  rect w m -> nth_error m i = Some row -> List.length row = w.
Proof.
  intros Hrect Hrow. unfold rect in Hrect. rewrite Forall_forall in Hrect.
  apply Hrect. eapply nth_error_In; eassumption.
Qed.

Lemma rect_repeat {A : Type} (x : A) (w h : nat) :
  rect w (repeat (repeat x w) h).
Proof.
  apply Forall_forall. intros row Hin.
  apply repeat_spec in Hin. subst row. apply repeat_length.
Qed.

Lemma shape3_repeat {A : Type} (x : A) (h w c : nat) :
  shape3 h w c (repeat (repeat (repeat x c) w) h).
Proof.
  repeat split.
  - apply repeat_length.
  - apply rect_repeat.
  - apply Forall_forall. intros row Hin.
    apply repeat_spec in Hin. subst row. apply rect_repeat.
Qed.

Lemma np_zeros_shape (h w : Z) (c : nat) :
  (0 <= h)%Z -> (0 <= w)%Z ->
  np_zeros h w c = Ok (repeat (repeat (repeat 0%Q c) (Z.to_nat w)) (Z.to_nat h)).
Proof.
  intros Hh Hw. unfold np_zeros.
  destruct (Z.ltb_spec h 0); [lia|].
  destruct (Z.ltb_spec w 0); [lia|]. reflexivity.
Qed.

(** ** Slices *)

Lemma py_slice_92 {A : Type} (l : list A) :
  py_slice 92 (Z.of_nat (List.length l) - 92) l
  = firstn (List.length l - 184) (skipn 92 l).
Proof.
  unfold py_slice, slice_bound.
  change (92 <? 0)%Z with false. cbv iota.
  destruct (Z.ltb_spec (Z.of_nat (List.length l) - 92) 0) as [Hneg|Hpos].
  - replace (List.length l - 184)%nat with 0%nat by lia.
    match goal with
    | |- firstn ?n _ = _ => replace n with 0%nat by lia
    end.
    reflexivity.
  - destruct (Nat.le_gt_cases 92 (List.length l)) as [Hle|Hgt].
    + f_equal; [lia|]. f_equal. lia.
    + lia.
Qed.

Lemma py_slice_92_length {A : Type} (l : list A) :
  List.length (py_slice 92 (Z.of_nat (List.length l) - 92) l)
  = (List.length l - 184)%nat.
Proof. rewrite py_slice_92, length_firstn, length_skipn. lia. Qed.

Lemma py_slice_92_nth_error {A : Type} (l : list A) (i : nat) :
  (i < List.length l - 184)%nat ->
  nth_error (py_slice 92 (Z.of_nat (List.length l) - 92) l) i
  = nth_error l (i + 92).
Proof.
  intros Hi. rewrite py_slice_92, nth_error_firstn, nth_error_skipn.
  destruct (Nat.ltb_spec i (List.length l - 184)); [|lia].
  f_equal. lia.
Qed.

Lemma In_py_slice_92 {A : Type} (l : list A) (x : A) :
  In x (py_slice 92 (Z.of_nat (List.length l) - 92) l) -> In x l.
Proof.
  rewrite py_slice_92. intros Hin.
  apply In_nth_error in Hin as [i Hi].
  rewrite nth_error_firstn, nth_error_skipn in Hi.
  destruct (i <? List.length l - 184)%nat; [|discriminate].
  eapply nth_error_In; eassumption.
Qed.

Lemma crop92_shape {A : Type} (h w c : nat) (image : list (list (list A))) :
  shape3 h w c image ->
  shape3 (h - 184) (w - 184) c
         (map (py_slice 92 (Z.of_nat w - 92))
              (py_slice 92 (Z.of_nat h - 92) image)).
Proof.
  intros (Hlen & Hrect & Hch). subst h.
  pose proof (In_py_slice_92 image) as Hin.
  unfold rect in *. rewrite Forall_forall in Hrect, Hch.
  repeat split.
  - rewrite length_map. apply py_slice_92_length.
  - apply Forall_forall. intros row' Hrow'.
    apply in_map_iff in Hrow' as (row & <- & Hrow).
    rewrite <- (Hrect row (Hin row Hrow)). apply py_slice_92_length.
  - apply Forall_forall. intros row' Hrow'.
    apply in_map_iff in Hrow' as (row & <- & Hrow).
    apply Forall_forall. intros px Hpx.
    specialize (Hch row (Hin row Hrow)). rewrite Forall_forall in Hch.
    apply Hch. rewrite <- (Hrect row (Hin row Hrow)) in Hpx.
    now apply In_py_slice_92.
Qed.

Lemma crop92_get {A : Type} (h w c : nat) (image : list (list (list A))) i j :
  shape3 h w c image -> (i < h - 184)%nat -> (j < w - 184)%nat ->
  get (map (py_slice 92 (Z.of_nat w - 92))
           (py_slice 92 (Z.of_nat h - 92) image)) i j
  = get image (i + 92) (j + 92).
Proof.
  intros (Hlen & Hrect & _) Hi Hj. subst h. unfold get.
  rewrite nth_error_map, py_slice_92_nth_error by assumption.
  destruct (nth_error image (i + 92)) as [row|] eqn:Hrow; [|reflexivity].
  simpl. pose proof (rect_nth_error _ _ _ _ Hrect Hrow) as Hw. subst w.
  now apply py_slice_92_nth_error.
Qed.

(** ** The VALID-padding crop *)

Lemma crop92_cropped_by_92 {A : Type} (h w c : nat)
      (t : list (list (list (list A)))) :
  Forall (shape3 h w c) t ->
  Forall (shape3 (h - 184) (w - 184) c) (crop92 (Z.of_nat h) (Z.of_nat w) t)
  /\ cropped_by_92 h w t (crop92 (Z.of_nat h) (Z.of_nat w) t).
Proof.
  induction 1 as [|image t Himage _ [IHshape IHcrop]]; simpl.
  - split; constructor.
  - split; constructor; try assumption.
    + now apply crop92_shape.
    + intros i j Hi Hj. eapply crop92_get; eassumption.
Qed.

Lemma allocate_shape (padding : string) (n_classes : nat)
      (large_prediction_output image_name : string) (h w : Z) :
  let shrink := if padding =? "VALID" then 184%Z else 0%Z in
  (shrink <= h)%Z -> (shrink <= w)%Z ->
  exists a,
    allocate padding n_classes large_prediction_output image_name (h, w) = Ok a
    /\ shape3 (Z.to_nat (h - shrink)) (Z.to_nat (w - shrink)) n_classes (mask a)
    /\ shape3 (Z.to_nat (h - shrink)) (Z.to_nat (w - shrink)) n_classes
              (division_mask a)
    /\ large_image_output_name a = path_join large_prediction_output image_name.
Proof.
  unfold allocate. destruct (padding =? "VALID"); cbv zeta; intros Hh Hw.
  - rewrite np_zeros_shape by lia. simpl.
    eexists. split; [reflexivity|]. simpl.
    repeat split; apply shape3_repeat.
  - rewrite np_zeros_shape by lia. simpl.
    rewrite !Z.sub_0_r.
    eexists. split; [reflexivity|]. simpl.
    repeat split; apply shape3_repeat.
Qed.

(** C4: under VALID padding the declared output is 184 smaller than the input
    in both directions; in training the truth and weight maps lose 92 rows
    and columns on every edge, and the accumulators of the large-image loop
    are allocated 184 smaller than the source image; under any other
    padding neither happens. *)
Theorem valid_padding_crop
        (resize : bool) (h w c : nat) (truth weights : list array3)
        (n_classes : nat) (large_prediction_output image_name : string)
        (source_height source_width : Z) :
  Forall (shape3 h w c) truth ->
  Forall (shape3 h w 1) weights ->
  (184 <= source_height)%Z ->
  (184 <= source_width)%Z ->
  (exists b,
      apply_padding "VALID" resize "train" (Z.of_nat h) (Z.of_nat w)
                    truth weights
      = Ok b
      /\ net_x b = Some (Z.of_nat h - 184)%Z
      /\ net_y b = Some (Z.of_nat w - 184)%Z
      /\ Forall (shape3 (h - 184) (w - 184) c) (truth_out b)
      /\ Forall (shape3 (h - 184) (w - 184) 1) (weights_out b)
      /\ cropped_by_92 h w truth (truth_out b)
      /\ cropped_by_92 h w weights (weights_out b))
  /\ (exists a,
         allocate "VALID" n_classes large_prediction_output image_name
                  (source_height, source_width) = Ok a
         /\ shape3 (Z.to_nat (source_height - 184))
                   (Z.to_nat (source_width - 184)) n_classes (mask a)
         /\ shape3 (Z.to_nat (source_height - 184))
                   (Z.to_nat (source_width - 184)) n_classes (division_mask a))
  /\ (forall padding mode,
         padding <> "VALID" ->
         apply_padding padding false mode (Z.of_nat h) (Z.of_nat w)
                       truth weights
         = Ok {| net_x := None; net_y := None; truth_out := truth;
                 weights_out := weights; crop := false |}
         /\ exists a,
             allocate padding n_classes large_prediction_output image_name
                      (source_height, source_width) = Ok a
             /\ shape3 (Z.to_nat source_height) (Z.to_nat source_width)
                       n_classes (mask a)
             /\ shape3 (Z.to_nat source_height) (Z.to_nat source_width)
                       n_classes (division_mask a)).
Proof.
  intros Htruth Hweights Hh Hw.
  destruct (crop92_cropped_by_92 h w c truth Htruth) as [Hts Htc].
  destruct (crop92_cropped_by_92 h w 1 weights Hweights) as [Hws Hwc].
  split; [|split].
  - eexists. split; [reflexivity|]. simpl.
    split; [reflexivity|]. split; [reflexivity|].
    repeat (split; [assumption|]). assumption.
  - destruct (allocate_shape "VALID" n_classes large_prediction_output
                             image_name source_height source_width Hh Hw)
      as (a & Ha & Hm & Hd & _).
    exists a. split; [assumption|split; assumption].
  - intros padding mode Hpad. apply String.eqb_neq in Hpad.
    split.
    + unfold apply_padding. now rewrite Hpad.
    + pose proof (allocate_shape padding n_classes large_prediction_output
                                 image_name source_height source_width) as Ha.
      rewrite Hpad in Ha. cbv zeta in Ha. rewrite !Z.sub_0_r in Ha.
      destruct Ha as (a & Ha & Hm & Hd & _); [lia|lia|].
      exists a. split; [assumption|split; assumption].
Qed.

Lemma valid_padding_crop_witness :
  (exists b,
      apply_padding "VALID" false "train" 186 186
                    [repeat (repeat (repeat 0%Q 2) 186) 186]
                    [repeat (repeat (repeat 1%Q 1) 186) 186] = Ok b
      /\ Forall (shape3 2 2 2) (truth_out b)
      /\ Forall (shape3 2 2 1) (weights_out b))
  /\ (exists a,
         allocate "VALID" 2 "out" "A.png" (200, 190)%Z = Ok a
         /\ shape3 16 6 2 (mask a) /\ shape3 16 6 2 (division_mask a)).
Proof.
  destruct (valid_padding_crop
              false 186 186 2
              [repeat (repeat (repeat 0%Q 2) 186) 186]
              [repeat (repeat (repeat 1%Q 1) 186) 186]
              2 "out" "A.png" 200 190
              (Forall_cons _ (shape3_repeat _ _ _ _) (Forall_nil _))
              (Forall_cons _ (shape3_repeat _ _ _ _) (Forall_nil _))
              ltac:(lia) ltac:(lia))
    as ((b & Hb & _ & _ & Hts & Hws & _) & Ha & _).
  split; [|exact Ha].
  exists b. split; [assumption|split; assumption].
Defined.

(** ** The tfrecord pipeline *)

Lemma predicate_spec (s : sample) :
  predicate s = true <-> (1 < reduce_sum_uint8 (sample_mask s))%Z.
Proof. unfold predicate. rewrite Z.gtb_ltb. apply Z.ltb_lt. Qed.

Lemma batch_fuel_concat {A : Type} (size : nat) :
  (0 < size)%nat ->
  forall fuel (l : list A),
    (List.length l <= fuel)%nat ->
    List.concat (batch_fuel fuel size l) = l.
Proof.
  intros Hsize. induction fuel as [|fuel IH]; intros l Hfuel.
  - destruct l; [reflexivity|simpl in Hfuel; lia].
  - destruct l as [|x l]; [reflexivity|].
    cbn [batch_fuel List.concat]. rewrite IH.
    + apply firstn_skipn.
    + rewrite length_skipn. cbn [List.length] in *. lia.
Qed.

(** In test mode the batches, read in order, are the parsed records that
    pass the filter, each once and in the order of arrival. *)
Lemma test_dataset_order {S : Type} (parse_example : S -> sample)
      (truth_only : bool) (batch_size : nat) (records : list S) :
  (0 < batch_size)%nat ->
  exists batches,
    test_dataset parse_example truth_only batch_size records = Ok batches
    /\ List.concat batches
       = if truth_only then filter predicate (map parse_example records)
         else map parse_example records.
Proof.
  intros Hsize. unfold test_dataset, tf_batch.
  destruct batch_size as [|n]; [lia|].
  eexists. split; [reflexivity|].
  apply batch_fuel_concat; lia.
Qed.

(** C7: with [truth_only] a mask whose entries sum to 1 has a positive
    pixel, yet the filter drops it: [predicate] asks for a sum above 1. *)
Theorem truth_filter_drops_single_positive :
  reduce_sum_uint8 (sample_mask one_positive_pixel) = 1%Z
  /\ predicate one_positive_pixel = false
  /\ test_dataset (fun s => s) true 1 [one_positive_pixel] = Ok []
  /\ test_dataset (fun s => s) false 1 [one_positive_pixel]
     = Ok [[one_positive_pixel]]
  /\ reduce_sum_uint8 (sample_mask one_hot_pixel) = 1%Z
  /\ predicate one_hot_pixel = false.
Proof. repeat split. Qed.

(** ** The blanket handler of the test and predict loops *)

Lemma while_try_returns {V R : Type} (body : V -> R -> V * option exn)
      (sess_run : list (result R)) :
  forall v, exists v', while_try body v sess_run = Ok v'.
Proof.
  induction sess_run as [|[r|e] rest IH]; intros v; simpl.
  - now exists v.
  - destruct (body v r) as [v' [e|]]; [now exists v'|apply IH].
  - now exists v.
Qed.

Lemma while_try_fault {V R : Type} (body : V -> R -> V * option exn)
      (pre rest : list (result R)) (e : exn) :
  forall v,
    while_try body v (pre ++ Raise e :: rest) = while_try body v pre.
Proof.
  induction pre as [|[r|e'] pre IH]; intros v; simpl.
  - reflexivity.
  - destruct (body v r) as [v' [e'|]]; [reflexivity|apply IH].
  - reflexivity.
Qed.

(** C5, as the code has it: whatever [sess.run] raises inside the test or
    predict loop, an I/O fault as much as the end of the data, ends the loop
    as if the data had ended there, with the results gathered so far; the
    loop itself never raises. *)
Theorem blanket_except_ends_loop
        (prediction_output : string)
        (test_pre test_rest : list (result test_run))
        (predict_pre predict_rest : list (result predict_run))
        (e : exn) :
  test_loop (test_pre ++ Raise e :: test_rest) = test_loop test_pre
  /\ (exists v, test_loop test_pre = Ok v)
  /\ predict_loop prediction_output (predict_pre ++ Raise e :: predict_rest)
     = predict_loop prediction_output predict_pre
  /\ (exists v, predict_loop prediction_output predict_pre = Ok v).
Proof.
  unfold test_loop, predict_loop. repeat split.
  - apply while_try_fault.
  - apply while_try_returns.
  - apply while_try_fault.
  - apply while_try_returns.
Qed.

(** C5 as stated fails: an I/O fault on the first sample is turned into a
    normal end of the loop, exactly as an empty data set would be. *)
Lemma io_fault_is_swallowed :
  test_loop [Raise (IOError "cannot decode image")]
  <> Raise (IOError "cannot decode image")
  /\ test_loop [Raise (IOError "cannot decode image")] = test_loop []
  /\ predict_loop "out" [Raise (IOError "mask is missing")]
     <> Raise (IOError "mask is missing")
  /\ predict_loop "out" [Raise (IOError "mask is missing")]
     = Ok {| predict_time_list := []; tif_saved := [] |}.
Proof. repeat split; discriminate. Qed.

(** ** The per-batch metric lists *)




Lemma mapM_Forall2 {A B : Type} (f : A -> result B) (l : list A) :
  forall l', mapM f l = Ok l' <-> Forall2 (fun x y => f x = Ok y) l l'.
Proof.
  induction l as [|x l IH]; intros l'; simpl.
  - split.
    + intros [= <-]. constructor.
    + intros H. inversion H. reflexivity.
  - split.
    + destruct (f x) as [y|e] eqn:Hfx; simpl; [|discriminate].
      destruct (mapM f l) as [ys|e] eqn:Hl; simpl; [|discriminate].
      intros [= <-]. constructor; [assumption|]. now apply IH.
    + intros H. inversion H as [|? y ? ys Hfx Hrest]; subst.
      rewrite Hfx. simpl. apply IH in Hrest. rewrite Hrest. reflexivity.
Qed.

Lemma mapM_defined {A B : Type} (f : A -> result B) (l : list A) :
  Forall (fun x => exists y, f x = Ok y) l -> exists l', mapM f l = Ok l'.
Proof.
  induction 1 as [|x l [y Hy] _ [l' Hl']]; simpl.
  - now exists [].
  - rewrite Hy, Hl'. simpl. now eexists.
Qed.







(** ** Indexing lemmas *)




Lemma nth_error_zip_with {A B C : Type} (f : A -> B -> C) (l : list A) :
  forall (l' : list B) (n : nat),
    nth_error (zip_with f l l') n
    = match nth_error l n, nth_error l' n with
      | Some x, Some y => Some (f x y)
      | _, _ => None
      end.
Proof.
  induction l as [|x l IH]; intros [|y l'] [|n]; simpl; try reflexivity.
  - now destruct (nth_error l n).
  - apply IH.
Qed.

Lemma length_zip_with {A B C : Type} (f : A -> B -> C) (l : list A) :
  forall l' : list B,
    List.length (zip_with f l l') = Nat.min (List.length l) (List.length l').
Proof.
  induction l as [|x l IH]; intros [|y l']; simpl; try reflexivity.
  now rewrite IH.
Qed.

Lemma get_map2d {A B : Type} (f : A -> B) (m : list (list A)) (r c : nat) :
  get (map2d f m) r c = option_map f (get m r c).
Proof.
  unfold get, map2d. rewrite nth_error_map.
  destruct (nth_error m r) as [row|]; simpl; [|reflexivity].
  apply nth_error_map.
Qed.

Lemma get_map3d {A B : Type} (f : A -> B) (a : list (list (list A)))
      (r c : nat) :
  get (map3d f a) r c = option_map (map f) (get a r c).
Proof. apply (get_map2d (map f)). Qed.


Lemma get_zip_with2 {A B C : Type} (f : A -> B -> C)
      (a : list (list A)) (b : list (list B)) (r c : nat) :
  get (zip_with (zip_with f) a b) r c
  = match get a r c, get b r c with
    | Some x, Some y => Some (f x y)
    | _, _ => None
    end.
Proof.
  unfold get. rewrite nth_error_zip_with.
  destruct (nth_error a r) as [ra|], (nth_error b r) as [rb|]; simpl;
    try reflexivity.
  - apply nth_error_zip_with.
  - now destruct (nth_error ra c).
Qed.

Lemma get_repeat {A : Type} (x : A) (h w r c : nat) :
  (r < h)%nat -> (c < w)%nat -> get (repeat (repeat x w) h) r c = Some x.
Proof.
  intros Hr Hc. unfold get.
  rewrite nth_error_repeat by assumption. now apply nth_error_repeat.
Qed.

Lemma Forall_nth_error_iff {A : Type} (P : A -> Prop) (l : list A) :
  Forall P l <-> (forall i x, nth_error l i = Some x -> P x).
Proof.
  rewrite Forall_forall. split.
  - intros H i x Hx. apply H. eapply nth_error_In; eassumption.
  - intros H x Hin. apply In_nth_error in Hin as [i Hi]. eapply H; eassumption.
Qed.

Lemma Forall2_nth_error_l {A B : Type} (R : A -> B -> Prop) (l : list A)
      (l' : list B) :
  Forall2 R l l' ->
  forall i x, nth_error l i = Some x ->
              exists y, nth_error l' i = Some y /\ R x y.
Proof.
  induction 1 as [|x0 y0 l l' Hxy _ IH]; intros [|i] x Hx; simpl in *;
    try discriminate.
  - injection Hx as <-. now exists y0.
  - now apply IH.
Qed.

(** ** Shapes along the reassembly *)

Lemma shape3_iff {A : Type} (h w c : nat) (a : list (list (list A))) :
  shape3 h w c a
  <-> List.length a = h
      /\ forall r row, nth_error a r = Some row ->
                       List.length row = w
                       /\ forall k px, nth_error row k = Some px ->
                                       List.length px = c.
Proof.
  unfold shape3, rect. rewrite !Forall_nth_error_iff. split.
  - intros (Hh & Hw & Hc). split; [assumption|].
    intros r row Hrow. split; [eapply Hw; eassumption|].
    intros k px Hpx. specialize (Hc r row Hrow).
    rewrite Forall_nth_error_iff in Hc. eapply Hc; eassumption.
  - intros (Hh & Hrows). split; [assumption|]. split.
    + intros r row Hrow. now apply (Hrows r row).
    + intros r row Hrow. apply Forall_nth_error_iff.
      intros k px Hpx. now apply (proj2 (Hrows r row Hrow) k px).
Qed.

Lemma shape3_get {A : Type} (h w c : nat) (a : list (list (list A)))
      (r k : nat) :
  shape3 h w c a -> (r < h)%nat -> (k < w)%nat ->
  exists px, get a r k = Some px /\ List.length px = c.
Proof.
  intros Hs Hr Hk. apply shape3_iff in Hs as (Hh & Hrows). unfold get.
  destruct (nth_error a r) as [row|] eqn:Hrow.
  - destruct (Hrows r row Hrow) as [Hw Hpx].
    destruct (nth_error row k) as [px|] eqn:Hk'.
    + exists px. split; [reflexivity|]. eapply Hpx; eassumption.
    + apply nth_error_None in Hk'. lia.
  - apply nth_error_None in Hrow. lia.
Qed.




Lemma replace_zeros_shape (h w c : nat) (d : array3) :
  shape3 h w c d -> shape3 h w c (replace_zeros d).
Proof.
  intros Hs. apply shape3_iff in Hs as (Hh & Hrows). apply shape3_iff.
  unfold replace_zeros, map3d. split; [now rewrite length_map|].
  intros r row' Hrow'. rewrite nth_error_map in Hrow'.
  destruct (nth_error d r) as [row|] eqn:Hrow; [|discriminate].
  injection Hrow' as <-. destruct (Hrows r row Hrow) as [Hw Hpx].
  split; [now rewrite length_map|].
  intros k px' Hpx'. rewrite nth_error_map in Hpx'.
  destruct (nth_error row k) as [px|] eqn:Hk; [|discriminate].
  injection Hpx' as <-. rewrite length_map. eapply Hpx; eassumption.
Qed.

(** ** [argmax] *)

Lemma argmax_from_spec (l : list Q) :
  forall best besti i,
    (argmax_from best besti i l = besti
     /\ forall j y, nth_error l j = Some y -> (y <= best)%Q)
    \/ (exists k x,
           argmax_from best besti i l = (i + k)%nat
           /\ nth_error l k = Some x
           /\ (best < x)%Q
           /\ (forall j y, nth_error l j = Some y -> (y <= x)%Q)
           /\ (forall j y, (j < k)%nat -> nth_error l j = Some y -> (y < x)%Q)).
Proof.
  induction l as [|x l IH]; intros best besti i; cbn [argmax_from].
  - left. split; [reflexivity|]. intros [|j] y H; discriminate.
  - destruct (Qle_bool x best) eqn:Hle.
    + apply Qle_bool_iff in Hle.
      destruct (IH best besti (S i)) as [[Hr Hall]|(k & x' & Hr & Hk & Hlt & Hall & Hbefore)].
      * left. split; [assumption|].
        intros [|j] y Hy; simpl in Hy.
        -- injection Hy as <-. assumption.
        -- eapply Hall; eassumption.
      * right. exists (S k), x'. repeat split.
        -- rewrite Hr. lia.
        -- assumption.
        -- assumption.
        -- intros [|j] y Hy; simpl in Hy.
           ++ injection Hy as <-. apply Qlt_le_weak.
              eapply Qle_lt_trans; eassumption.
           ++ eapply Hall; eassumption.
        -- intros [|j] y Hj Hy; simpl in Hy.
           ++ injection Hy as <-. eapply Qle_lt_trans; eassumption.
           ++ apply (Hbefore j); [lia|assumption].
    + assert (Hlt : (best < x)%Q).
      { apply Qnot_le_lt. intros H. apply Qle_bool_iff in H. congruence. }
      destruct (IH x i (S i)) as [[Hr Hall]|(k & x' & Hr & Hk & Hlt' & Hall & Hbefore)].
      * right. exists 0%nat, x. repeat split.
        -- rewrite Hr. lia.
        -- assumption.
        -- intros [|j] y Hy; simpl in Hy.
           ++ injection Hy as <-. apply Qle_refl.
           ++ eapply Hall; eassumption.
        -- intros j y Hj. lia.
      * right. exists (S k), x'. repeat split.
        -- rewrite Hr. lia.
        -- assumption.
        -- eapply Qlt_trans; eassumption.
        -- intros [|j] y Hy; simpl in Hy.
           ++ injection Hy as <-. now apply Qlt_le_weak.
           ++ eapply Hall; eassumption.
        -- intros [|j] y Hj Hy; simpl in Hy.
           ++ injection Hy as <-. assumption.
           ++ apply (Hbefore j); [lia|assumption].
Qed.

(** [argmax] returns the position of the first maximum. *)
Lemma argmax_first_max (l : list Q) (i : nat) :
  argmax l = Some i -> first_max l i.
Proof.
  destruct l as [|x l]; [discriminate|]. simpl. intros [= <-].
  destruct (argmax_from_spec l x 0%nat 1%nat)
    as [[Hr Hall]|(k & x' & Hr & Hk & Hlt & Hall & Hbefore)]; rewrite Hr.
  - exists x. repeat split.
    + intros [|j] y Hy; simpl in Hy.
      * injection Hy as <-. apply Qle_refl.
      * eapply Hall; eassumption.
    + intros j y Hj. lia.
  - exists x'. repeat split.
    + assumption.
    + intros [|j] y Hy; simpl in Hy.
      * injection Hy as <-. now apply Qlt_le_weak.
      * eapply Hall; eassumption.
    + intros [|j] y Hj Hy; simpl in Hy.
      * injection Hy as <-. assumption.
      * apply (Hbefore j); [lia|assumption].
Qed.

Lemma first_max_unique (l : list Q) (i j : nat) :
  first_max l i -> first_max l j -> i = j.
Proof.
  intros (x & Hx & Hmax & Hfirst) (y & Hy & Hmax' & Hfirst').
  destruct (Nat.lt_trichotomy i j) as [Hlt|[Heq|Hgt]]; [|assumption|].
  - exfalso. apply (Qlt_not_le _ _ (Hfirst' i x Hlt Hx)).
    eapply Hmax; eassumption.
  - exfalso. apply (Qlt_not_le _ _ (Hfirst j y Hgt Hy)).
    eapply Hmax'; eassumption.
Qed.


Lemma argmax_defined (l : list Q) :
  (0 < List.length l)%nat -> exists i, argmax l = Some i.
Proof. destruct l; simpl; [lia|]. intros _. now eexists. Qed.

(** ** The label map of a flush *)

Lemma argmax_axis2_get (a : array3) (image : labels) (r c : nat) (px : list Q) :
  argmax_axis2 a = Ok image ->
  get a r c = Some px ->
  exists i, get image r c = Some (Z.of_nat i) /\ argmax px = Some i.
Proof.
  unfold argmax_axis2, get. intros Hok Hpx.
  apply mapM_Forall2 in Hok.
  destruct (nth_error a r) as [row|] eqn:Hrow; [|discriminate].
  destruct (Forall2_nth_error_l _ _ _ Hok r row Hrow) as (row' & Hrow' & Hrows).
  rewrite Hrow'. apply mapM_Forall2 in Hrows.
  destruct (Forall2_nth_error_l _ _ _ Hrows c px Hpx) as (v & Hv & Hpxv).
  destruct (argmax px) as [i|]; [|discriminate].
  injection Hpxv as <-. now exists i.
Qed.

Lemma argmax_axis2_defined (h w c : nat) (a : array3) :
  shape3 h w c a -> (0 < c)%nat -> exists image, argmax_axis2 a = Ok image.
Proof.
  intros Hs Hc. apply shape3_iff in Hs as (_ & Hrows).
  apply mapM_defined. apply Forall_nth_error_iff. intros r row Hrow.
  apply mapM_defined. apply Forall_nth_error_iff. intros k px Hpx.
  destruct (argmax_defined px) as [i Hi].
  - rewrite (proj2 (Hrows r row Hrow) k px Hpx). assumption.
  - rewrite Hi. now eexists.
Qed.

Lemma divide_shape (h w c : nat) (m d : array3) :
  shape3 h w c m -> shape3 h w c d -> shape3 h w c (divide m d).
Proof.
  intros Hm Hd. apply shape3_iff in Hm as (Hmh & Hmrows).
  apply shape3_iff in Hd as (Hdh & Hdrows). apply shape3_iff.
  unfold divide. split; [rewrite length_zip_with; lia|].
  intros r row Hrow. rewrite nth_error_zip_with in Hrow.
  destruct (nth_error m r) as [mrow|] eqn:Hmrow; [|discriminate].
  destruct (nth_error d r) as [drow|] eqn:Hdrow; [|discriminate].
  injection Hrow as <-.
  destruct (Hmrows r mrow Hmrow) as [Hmw Hmpx].
  destruct (Hdrows r drow Hdrow) as [Hdw Hdpx].
  split; [rewrite length_zip_with; lia|].
  intros k px Hpx. rewrite nth_error_zip_with in Hpx.
  destruct (nth_error mrow k) as [mpx|] eqn:Hmk; [|discriminate].
  destruct (nth_error drow k) as [dpx|] eqn:Hdk; [|discriminate].
  injection Hpx as <-. rewrite length_zip_with.
  rewrite (Hmpx k mpx Hmk), (Hdpx k dpx Hdk). lia.
Qed.

Lemma label_map_defined (h w c : nat) (a : accumulator) :
  shape3 h w c (mask a) -> shape3 h w c (division_mask a) -> (0 < c)%nat ->
  exists image, label_map (normalise a) = Ok image.
Proof.
  intros Hm Hd Hc. unfold label_map. simpl.
  apply (argmax_axis2_defined h w c); [|assumption].
  apply divide_shape; [assumption|now apply replace_zeros_shape].
Qed.

(** The label at a pixel is the first maximum, over the classes, of the
    accumulated sums divided by the repaired counts. *)
Lemma label_map_get (a : accumulator) (image : labels) (r c : nat)
      (m d : list Q) :
  label_map (normalise a) = Ok image ->
  get (mask a) r c = Some m ->
  get (division_mask a) r c = Some d ->
  exists i,
    get image r c = Some (Z.of_nat i)
    /\ first_max
         (zip_with Qdiv m (map (fun x => if Qeq_bool x 0 then 1%Q else x) d)) i.
Proof.
  unfold label_map. simpl. intros Hok Hm Hd.
  destruct (argmax_axis2_get _ image r c
              (zip_with Qdiv m
                        (map (fun x => if Qeq_bool x 0 then 1%Q else x) d)) Hok)
    as (i & Hi & Harg).
  - unfold divide. rewrite get_zip_with2, Hm.
    unfold replace_zeros. now rewrite get_map3d, Hd.
  - exists i. split; [assumption|now apply argmax_first_max].
Qed.


Lemma emitted_get (image : labels) (r c : nat) :
  get (astype_uint8 (stack3 image)) r c
  = option_map (fun v => [v mod 256; v mod 256; v mod 256]%Z) (get image r c).
Proof.
  unfold astype_uint8, stack3. rewrite get_map3d, get_map2d.
  now destruct (get image r c).
Qed.

(** ** The two flushes *)

Lemma Qle_bool_half (v : Z) : Qle_bool (1#2) (inject_Z v) = (1 <=? v)%Z.
Proof.
  unfold Qle_bool, inject_Z. simpl.
  destruct (Z.leb_spec 1 (v * 2)), (Z.leb_spec 1 v); try reflexivity; lia.
Qed.

Lemma threshold_spec (image : labels) :
  threshold image = map2d (fun l => if (1 <=? l)%Z then 1%Z else 0%Z) image.
Proof.
  unfold threshold, map2d. rewrite map_map. apply map_ext. intros row.
  rewrite map_map. apply map_ext. intros v.
  rewrite (Qle_bool_half v).
  destruct (1 <=? v)%Z eqn:Hv; rewrite Qle_bool_half;
    [reflexivity|now rewrite Hv].
Qed.

Lemma thresholded_values (image : labels) :
  Forall (Forall (Forall (fun v => v = 0%Z \/ v = 1%Z)))
         (astype_uint8 (stack3 (threshold image))).
Proof.
  rewrite threshold_spec. unfold astype_uint8, stack3, map3d, map2d.
  rewrite !map_map.
  apply Forall_map, Forall_forall. intros row _.
  rewrite !map_map.
  apply Forall_map, Forall_forall. intros v _.
  destruct (1 <=? v)%Z; repeat constructor; now (left + right).
Qed.

(** C9: the image saved at the end of a batch holds 0 and 1 only: it is the
    image the identifier-change flush would save for the same accumulator
    with every label of 1 or more replaced by 1.  For a pixel of class 2
    the two flushes differ. *)
Theorem end_of_batch_flush_thresholds
        (a a' : accumulator) (name : string) (image : image8) :
  flush_end_of_batch a = Ok (a', (name, image)) ->
  Forall (Forall (Forall (fun v => v = 0%Z \/ v = 1%Z))) image
  /\ (exists raw,
         label_map (normalise a) = Ok raw
         /\ flush_on_change a = Ok (a', (name, astype_uint8 (stack3 raw)))
         /\ image
            = astype_uint8
                (stack3 (map2d (fun l => if (1 <=? l)%Z then 1%Z else 0%Z)
                               raw)))
  /\ flush_on_change three_class_accumulator
     = Ok (three_class_accumulator, ("out/A.png", [[[2; 2; 2]]]%Z))
  /\ flush_end_of_batch three_class_accumulator
     = Ok (three_class_accumulator, ("out/A.png", [[[1; 1; 1]]]%Z)).
Proof.
  unfold flush_end_of_batch, flush_on_change.
  destruct (label_map (normalise a)) as [raw|e]; simpl; [|discriminate].
  intros [= <- <- <-]. split; [apply thresholded_values|].
  split; [|split; reflexivity].
  exists raw. split; [reflexivity|]. split; [reflexivity|].
  now rewrite threshold_spec.
Qed.

Lemma end_of_batch_flush_thresholds_witness :
  Forall (Forall (Forall (fun v => v = 0%Z \/ v = 1%Z))) [[[1; 1; 1]]]%Z
  /\ flush_on_change three_class_accumulator
     = Ok (three_class_accumulator, ("out/A.png", [[[2; 2; 2]]]%Z)).
Proof.
  destruct (end_of_batch_flush_thresholds
              three_class_accumulator three_class_accumulator
              "out/A.png" [[[1; 1; 1]]]%Z eq_refl)
    as (Hbin & _ & Hraw & _).
  split; assumption.
Defined.

(** ** Overlapping tiles *)






Lemma flush_pixels (h w c : nat) (a : accumulator) :
  shape3 h w c (mask a) -> shape3 h w c (division_mask a) -> (0 < c)%nat ->
  exists raw,
    label_map (normalise a) = Ok raw
    /\ flush_on_change a
       = Ok (normalise a,
             (large_image_output_name a, astype_uint8 (stack3 raw)))
    /\ flush_end_of_batch a
       = Ok (normalise a,
             (large_image_output_name a,
              astype_uint8 (stack3 (threshold raw))))
    /\ forall r k,
        (r < h)%nat -> (k < w)%nat ->
        exists m d i,
          get (mask a) r k = Some m
          /\ get (division_mask a) r k = Some d
          /\ first_max
               (zip_with Qdiv m
                         (map (fun x => if Qeq_bool x 0 then 1%Q else x) d)) i
          /\ get (astype_uint8 (stack3 raw)) r k
             = Some (let v := (Z.of_nat i mod 256)%Z in [v; v; v])
          /\ get (astype_uint8 (stack3 (threshold raw))) r k
             = Some (let v := if (1 <=? Z.of_nat i)%Z then 1%Z else 0%Z in
                     [v; v; v]).
Proof.
  intros Hm Hd Hc.
  destruct (label_map_defined h w c a Hm Hd Hc) as [raw Hraw].
  exists raw. split; [assumption|].
  unfold flush_on_change, flush_end_of_batch. rewrite Hraw. simpl.
  split; [reflexivity|]. split; [reflexivity|].
  intros r k Hr Hk.
  destruct (shape3_get h w c _ r k Hm Hr Hk) as (m & Hgm & _).
  destruct (shape3_get h w c _ r k Hd Hr Hk) as (d & Hgd & _).
  destruct (label_map_get a raw r k m d Hraw Hgm Hgd) as (i & Hi & Hmax).
  exists m, d, i. repeat (split; [assumption|]).
  rewrite !emitted_get, threshold_spec, get_map2d, Hi. simpl.
  split; [reflexivity|].
  now destruct (1 <=? Z.of_nat i)%Z.
Qed.





(** ** The reassembly loop as a whole *)


Section Reassembly.

Variable padding : string.
Variable n_classes : nat.
Variable large_prediction_output : string.
Hypothesis classes : (0 < n_classes)%nat.





End Reassembly.




(** ** Quarter turns and flips *)

Section Dihedral.

Context {A : Type}.

Lemma flip_left_right_involutive (m : list (list A)) :
  flip_left_right (flip_left_right m) = m.
Proof.
  unfold flip_left_right. rewrite map_map.
  rewrite <- (map_id m) at 2. apply map_ext. intros row. apply rev_involutive.
Qed.

Lemma flip_left_right_rev (m : list (list A)) :
  flip_left_right (rev m) = rev (flip_left_right m).
Proof. unfold flip_left_right. apply map_rev. Qed.

Lemma rect_flip_left_right (w : nat) (m : list (list A)) :
  rect w m -> rect w (flip_left_right m).
Proof.
  unfold rect, flip_left_right. intros H. apply Forall_map.
  eapply Forall_impl; [|exact H]. intros row Hrow. now rewrite length_rev.
Qed.

Lemma nth_error_col (w : nat) (m : list (list A)) (j : nat) :
  rect w m -> (j < w)%nat ->
  forall i, nth_error (col j m) i = get m i j.
Proof.
  intros Hrect Hj. induction Hrect as [|row m Hrow _ IH]; intros i.
  - now destruct i.
  - cbn [col]. destruct (nth_error row j) as [x|] eqn:Hx.
    + destruct i as [|i]; [unfold get; simpl; now rewrite Hx|]. apply IH.
    + apply nth_error_None in Hx. lia.
Qed.

Lemma length_col (w : nat) (m : list (list A)) (j : nat) :
  rect w m -> (j < w)%nat -> List.length (col j m) = List.length m.
Proof.
  intros Hrect Hj. induction Hrect as [|row m Hrow _ IH]; [reflexivity|].
  cbn [col]. destruct (nth_error row j) as [x|] eqn:Hx.
  - simpl. now rewrite IH.
  - apply nth_error_None in Hx. lia.
Qed.

Lemma width_rect (w : nat) (m : list (list A)) :
  rect w m -> m <> [] -> width m = w.
Proof.
  intros Hrect Hne. destruct m as [|row m]; [congruence|].
  now inversion Hrect.
Qed.

Lemma nth_error_transpose (w : nat) (m : list (list A)) (j : nat) :
  rect w m -> m <> [] ->
  nth_error (transpose m) j
  = if (j <? w)%nat then Some (col j m) else None.
Proof.
  intros Hrect Hne. unfold transpose.
  rewrite (width_rect w m Hrect Hne), nth_error_map, nth_error_seq.
  now destruct (j <? w)%nat.
Qed.

Lemma rect_transpose (w : nat) (m : list (list A)) :
  rect w m -> rect (List.length m) (transpose m).
Proof.
  intros Hrect. destruct m as [|row0 m0]; [constructor|].
  set (m := row0 :: m0) in *.
  assert (Hne : m <> []) by discriminate.
  apply Forall_nth_error_iff. intros j c Hc.
  rewrite (nth_error_transpose w) in Hc by assumption.
  destruct (Nat.ltb_spec j w); [|discriminate].
  replace c with (col j m) by congruence. now apply (length_col w).
Qed.

Lemma length_transpose (w : nat) (m : list (list A)) :
  rect w m -> m <> [] -> List.length (transpose m) = w.
Proof.
  intros Hrect Hne. unfold transpose.
  now rewrite length_map, length_seq, (width_rect w m Hrect Hne).
Qed.

(** Transposing twice gives the matrix back, provided it has a column. *)
Lemma transpose_involutive (w : nat) (m : list (list A)) :
  rect w m -> (m <> [] -> 0 < w)%nat -> transpose (transpose m) = m.
Proof.
  intros Hrect Hw. destruct m as [|row0 m0]; [reflexivity|].
  set (m := row0 :: m0) in *.
  assert (Hne : m <> []) by discriminate. specialize (Hw Hne).
  assert (Hne' : transpose m <> []).
  { intros E. apply (f_equal (@List.length _)) in E.
    rewrite (length_transpose w) in E by assumption. simpl in E. lia. }
  pose proof (rect_transpose w m Hrect) as Hrect'.
  apply nth_error_ext. intros i.
  rewrite (nth_error_transpose (List.length m)) by assumption.
  destruct (Nat.ltb_spec i (List.length m)) as [Hi|Hi].
  - destruct (nth_error m i) as [row|] eqn:Hrow;
      [|apply nth_error_None in Hrow; lia].
    f_equal. apply nth_error_ext. intros j.
    rewrite (nth_error_col (List.length m)) by assumption.
    unfold get. rewrite (nth_error_transpose w) by assumption.
    destruct (Nat.ltb_spec j w) as [Hj|Hj].
    + rewrite (nth_error_col w) by assumption. unfold get. now rewrite Hrow.
    + symmetry. apply nth_error_None.
      now rewrite (rect_nth_error w m i row Hrect Hrow).
  - symmetry. now apply nth_error_None.
Qed.

(** The inverse turns of lines 416-422 undo the turns of lines 320-326. *)
Lemma rot90_cancel (n : nat) (x : list (list A)) :
  List.length x = n -> rect n x ->
  rot90 (rot90 x 1) (-1) = x
  /\ rot90 (rot90 x 2) (-2) = x
  /\ rot90 (rot90 x 3) (-3) = x
  /\ flip_left_right (flip_left_right x) = x
  /\ rot90 (flip_left_right (rot90 (flip_left_right x) 1)) 1 = x
  /\ rot90 (flip_left_right (rot90 (flip_left_right x) 2)) (-2) = x
  /\ rot90 (flip_left_right (rot90 (flip_left_right x) 3)) (-1) = x.
Proof.
  intros Hlen Hrect.
  assert (Hw : (x <> [] -> 0 < n)%nat).
  { intros Hne. destruct x; [congruence|]. simpl in Hlen. lia. }
  assert (Ht : transpose (transpose x) = x)
    by now apply (transpose_involutive n).
  assert (Htf : transpose (transpose (flip_left_right x)) = flip_left_right x).
  { apply (transpose_involutive n).
    - now apply rect_flip_left_right.
    - intros Hne. apply Hw. intros ->. now apply Hne. }
  unfold rot90.
  change (1 mod 4)%Z with 1%Z. change (2 mod 4)%Z with 2%Z.
  change (3 mod 4)%Z with 3%Z. change (-1 mod 4)%Z with 3%Z.
  change (-2 mod 4)%Z with 2%Z. change (-3 mod 4)%Z with 1%Z.
  cbv iota.
  repeat split.
  - now rewrite Htf, flip_left_right_involutive.
  - now rewrite flip_left_right_rev, rev_involutive,
      flip_left_right_involutive.
  - now rewrite flip_left_right_involutive.
  - apply flip_left_right_involutive.
  - now rewrite !flip_left_right_involutive.
  - now rewrite !flip_left_right_involutive, rev_involutive.
  - now rewrite flip_left_right_involutive, Htf, flip_left_right_involutive.
Qed.

End Dihedral.

(** ** Shapes under the turns *)

Lemma shape3_flip_left_right {A : Type} (h w c : nat)
      (a : list (list (list A))) :
  shape3 h w c a -> shape3 h w c (flip_left_right a).
Proof.
  intros (Hh & Hw & Hc). unfold shape3, flip_left_right.
  split; [now rewrite length_map|].
  split; [now apply rect_flip_left_right|].
  apply Forall_map. eapply Forall_impl; [|exact Hc].
  intros row Hrow. now apply Forall_rev.
Qed.

Lemma shape3_rev {A : Type} (h w c : nat) (a : list (list (list A))) :
  shape3 h w c a -> shape3 h w c (rev a).
Proof.
  intros (Hh & Hw & Hc). unfold shape3, rect.
  split; [now rewrite length_rev|]. split; now apply Forall_rev.
Qed.

Lemma shape3_transpose {A : Type} (n c : nat) (a : list (list (list A))) :
  shape3 n n c a -> shape3 n n c (transpose a).
Proof.
  intros Hs. pose proof Hs as (Hh & Hw & _).
  destruct a as [|row0 a0]; [exact Hs|].
  set (a := row0 :: a0) in *.
  assert (Hne : a <> []) by discriminate.
  apply shape3_iff in Hs as (_ & Hrows). apply shape3_iff.
  split; [now apply length_transpose|].
  intros j column Hcol.
  rewrite (nth_error_transpose n) in Hcol by assumption.
  destruct (Nat.ltb_spec j n) as [Hj|Hj]; [|discriminate].
  replace column with (col j a) by congruence.
  split; [rewrite <- Hh; now apply (length_col n)|].
  intros i px Hpx. rewrite (nth_error_col n) in Hpx by assumption.
  unfold get in Hpx. destruct (nth_error a i) as [row|] eqn:Hrow;
    [|discriminate].
  eapply (proj2 (Hrows i row Hrow)); eassumption.
Qed.

Lemma shape_of_shape3 {A : Type} (h w c : nat) (a b : list (list (list A))) :
  shape3 h w c a -> shape3 h w c b -> shape_of a = shape_of b.
Proof.
  intros (Ha & Hwa & Hca) (Hb & Hwb & Hcb). unfold shape_of.
  destruct a as [|ra a], b as [|rb b]; simpl in *; try congruence.
  inversion Hwa as [|? ? Hra _]; inversion Hwb as [|? ? Hrb _]; subst.
  inversion Hca as [|? ? Hpa _]; inversion Hcb as [|? ? Hpb _]; subst.
  f_equal; [f_equal; congruence|].
  destruct ra as [|pa ra], rb as [|pb rb]; simpl in *; try congruence.
  inversion Hpa; inversion Hpb; congruence.
Qed.

Lemma shape_eqb_refl (s : nat * nat * nat) : shape_eqb s s = true.
Proof. destruct s as [[h w] c]. simpl. now rewrite !Nat.eqb_refl. Qed.

(** ** The mean of the aligned predictions *)

Lemma zip_with_map_l {A B C : Type} (f : B -> A -> C) (g : A -> B)
      (l : list A) :
  zip_with f (map g l) l = map (fun a => f (g a) a) l.
Proof. induction l as [|a l IH]; simpl; [reflexivity|now rewrite IH]. Qed.

Lemma map3d_id (x : array3) : map3d (fun q => q) x = x.
Proof.
  unfold map3d. rewrite <- (map_id x) at 2. apply map_ext. intros row.
  rewrite <- (map_id row) at 2. apply map_ext. intros px. apply map_id.
Qed.

Lemma map3d_map3d (f g : Q -> Q) (x : array3) :
  map3d f (map3d g x) = map3d (fun q => f (g q)) x.
Proof.
  unfold map3d. rewrite map_map. apply map_ext. intros row.
  rewrite map_map. apply map_ext. intros px. apply map_map.
Qed.

Lemma add3_map3d_l (g : Q -> Q) (x : array3) :
  add3 (map3d g x) x = map3d (fun q => (g q + q)%Q) x.
Proof.
  unfold add3, map3d. rewrite zip_with_map_l. apply map_ext. intros row.
  rewrite zip_with_map_l. apply map_ext. intros px.
  apply zip_with_map_l.
Qed.

Lemma array3_eq_map3d (f : Q -> Q) (x : array3) :
  (forall q, (f q == q)%Q) -> array3_eq (map3d f x) x.
Proof.
  intros Hf. unfold array3_eq, map3d.
  induction x as [|row x IH]; simpl; constructor; [|assumption].
  clear IH. induction row as [|px row IH]; simpl; constructor; [|assumption].
  clear IH. induction px as [|q px IH]; simpl; constructor; [apply Hf|assumption].
Qed.

Lemma mean_of_eight (x : array3) :
  exists y, reduce_mean0 [x; x; x; x; x; x; x; x] = [y] /\ array3_eq y x.
Proof.
  eexists. split; [reflexivity|].
  cbn [fold_left List.length].
  rewrite <- (map3d_id x) at 1. rewrite !add3_map3d_l, map3d_map3d.
  apply array3_eq_map3d. intros q.
  change (inject_Z (Z.of_nat 8)) with (8#1)%Q. field.
Qed.

(** ** The orientation ensemble *)

Lemma tumble_inputs_single {A : Type} (n c : nat)
      (x : list (list (list A))) :
  shape3 n n c x ->
  tumble_inputs [x]
  = Ok [x; rot90 x 1; rot90 x 2; rot90 x 3;
        flip_left_right x; rot90 (flip_left_right x) 1;
        rot90 (flip_left_right x) 2; rot90 (flip_left_right x) 3].
Proof.
  intros Hs. unfold tumble_inputs, tf_concat. cbn [map List.concat app].
  assert (Hf : shape3 n n c (flip_left_right x))
    by now apply shape3_flip_left_right.
  assert (Hturn : forall y : list (list (list A)),
             shape3 n n c y ->
             shape_eqb (shape_of (rot90 y 1)) (shape_of x) = true
             /\ shape_eqb (shape_of (rot90 y 2)) (shape_of x) = true
             /\ shape_eqb (shape_of (rot90 y 3)) (shape_of x) = true).
  { intros y Hy. unfold rot90.
    change (1 mod 4)%Z with 1%Z. change (2 mod 4)%Z with 2%Z.
    change (3 mod 4)%Z with 3%Z. cbv iota.
    repeat split;
      (erewrite shape_of_shape3; [apply shape_eqb_refl| |exact Hs]).
    - now apply shape3_transpose, shape3_flip_left_right.
    - now apply shape3_rev, shape3_flip_left_right.
    - now apply shape3_flip_left_right, shape3_transpose. }
  destruct (Hturn x Hs) as (H1 & H2 & H3).
  destruct (Hturn _ Hf) as (H5 & H6 & H7).
  unfold same_shapes. cbn [forallb].
  rewrite H1, H2, H3, H5, H6, H7.
  rewrite (shape_of_shape3 n n c _ x Hf Hs), shape_eqb_refl.
  reflexivity.
Qed.

Lemma col_map {A B : Type} (g : A -> B) (j : nat) (m : list (list A)) :
  col j (map (map g) m) = map g (col j m).
Proof.
  induction m as [|row m IH]; [reflexivity|].
  cbn [map col]. rewrite nth_error_map.
  destruct (nth_error row j); simpl; now rewrite IH.
Qed.

Lemma transpose_map {A B : Type} (g : A -> B) (m : list (list A)) :
  transpose (map (map g) m) = map (map g) (transpose m).
Proof.
  unfold transpose. rewrite map_map.
  replace (width (map (map g) m)) with (width m)
    by (destruct m; simpl; now rewrite ?length_map).
  apply map_ext. intros j. apply col_map.
Qed.

Lemma flip_left_right_map {A B : Type} (g : A -> B) (m : list (list A)) :
  flip_left_right (map (map g) m) = map (map g) (flip_left_right m).
Proof.
  unfold flip_left_right. rewrite !map_map. apply map_ext. intros row.
  symmetry. apply map_rev.
Qed.

(** A pixelwise conversion commutes with the turns. *)
Lemma rot90_map {A B : Type} (g : A -> B) (m : list (list A)) (k : Z) :
  rot90 (map (map g) m) k = map (map g) (rot90 m k).
Proof.
  unfold rot90.
  destruct (k mod 4)%Z as [|p|p]; try reflexivity.
  destruct p as [q|q|]; try destruct q; try reflexivity.
  - now rewrite transpose_map, flip_left_right_map.
  - now rewrite flip_left_right_map, map_rev.
  - now rewrite flip_left_right_map, transpose_map.
Qed.

Lemma shape3_map3d {A B : Type} (g : A -> B) (h w c : nat)
      (a : list (list (list A))) :
  shape3 h w c a -> shape3 h w c (map3d g a).
Proof.
  intros Hs. apply shape3_iff in Hs as (Hh & Hrows). apply shape3_iff.
  unfold map3d. split; [now rewrite length_map|].
  intros r row' Hrow'. rewrite nth_error_map in Hrow'.
  destruct (nth_error a r) as [row|] eqn:Hrow; [|discriminate].
  injection Hrow' as <-. destruct (Hrows r row Hrow) as [Hw Hpx].
  split; [now rewrite length_map|].
  intros k px' Hpx'. rewrite nth_error_map in Hpx'.
  destruct (nth_error row k) as [px|] eqn:Hk; [|discriminate].
  injection Hpx' as <-. rewrite length_map. eapply Hpx; eassumption.
Qed.

(** C3, for a batch of one square image.  The batch is expanded into the
    eight variants, every inverse turn or flip applied to an output undoes
    the transform applied to the matching input, and with the identity for
    network the mean of the eight aligned outputs is the input, as
    converted to float on its way into the network. *)
Theorem tumble_identity_round_trip (n c : nat) (x : image8) :
  shape3 n n c x ->
  tumble_inputs [x]
  = Ok [x; rot90 x 1; rot90 x 2; rot90 x 3;
        flip_left_right x; rot90 (flip_left_right x) 1;
        rot90 (flip_left_right x) 2; rot90 (flip_left_right x) 3]
  /\ (rot90 (rot90 x 1) (-1) = x
      /\ rot90 (rot90 x 2) (-2) = x
      /\ rot90 (rot90 x 3) (-3) = x
      /\ flip_left_right (flip_left_right x) = x
      /\ rot90 (flip_left_right (rot90 (flip_left_right x) 1)) 1 = x
      /\ rot90 (flip_left_right (rot90 (flip_left_right x) 2)) (-2) = x
      /\ rot90 (flip_left_right (rot90 (flip_left_right x) 3)) (-1) = x)
  /\ exists y,
      tumble (fun batch => batch) [x] = Ok [y]
      /\ array3_eq y (convert_image_dtype x).
Proof.
  intros Hs. pose proof Hs as (Hlen & Hrect & _).
  split; [now apply (tumble_inputs_single n c)|].
  split; [now apply (rot90_cancel n)|].
  set (z := convert_image_dtype x).
  assert (Hz : shape3 n n c z) by now apply shape3_map3d.
  destruct Hz as (Hzlen & Hzrect & _).
  destruct (rot90_cancel n z Hzlen Hzrect)
    as (C1 & C2 & C3 & C4 & C5 & C6 & C7).
  destruct (mean_of_eight z) as (y & Hmean & Hy).
  exists y. split; [|exact Hy].
  pose proof (tumble_inputs_single n c x Hs) as Hin.
  unfold tumble. unfold image8 in *. rewrite Hin. cbn [bind map].
  unfold convert_image_dtype, map3d.
  rewrite <- !rot90_map, <- !flip_left_right_map.
  fold (map3d (fun v => (inject_Z v / 255)%Q) x).
  fold (convert_image_dtype x). fold z.
  unfold tumble_prediction.
  cbn [skipn firstn map index0 nth_error of_option bind].
  rewrite C1, C2, C3, C4, C5, C6, C7.
  unfold tf_stack, same_shapes. cbn [forallb].
  rewrite shape_eqb_refl. cbn [andb bind].
  f_equal. exact Hmean.
Qed.

Lemma tumble_identity_round_trip_witness :
  exists y, tumble (fun batch => batch) [image_1] = Ok [y]
            /\ array3_eq y (convert_image_dtype image_1).
Proof.
  destruct (tumble_identity_round_trip 2 3 image_1) as (_ & _ & Hy).
  - unfold shape3, rect. repeat constructor.
  - exact Hy.
Defined.

(** C3 as stated fails for a batch of two images: the inversion reads the
    first eight entries of the sixteen outputs as if they were the eight
    variants of one image, and a single image comes out that is neither of
    the inputs. *)
Lemma tumble_two_images_mixes :
  exists y,
    tumble (fun batch => batch) [image_1; image_2] = Ok [y]
    /\ ~ array3_eq y (convert_image_dtype image_1)
    /\ ~ array3_eq y (convert_image_dtype image_2)
    /\ ~ Forall2 array3_eq [y]
                 [convert_image_dtype image_1; convert_image_dtype image_2].
Proof.
  eexists. split; [reflexivity|]. repeat split.
  - intros H. inversion H as [|? ? ? ? Hrow _]; subst.
    inversion Hrow as [|? ? ? ? Hpx _]; subst.
    inversion Hpx as [|? ? ? ? Hq _]; subst.
    vm_compute in Hq. discriminate Hq.
  - intros H. inversion H as [|? ? ? ? Hrow _]; subst.
    inversion Hrow as [|? ? ? ? _ Hrest]; subst.
    inversion Hrest as [|? ? ? ? Hpx _]; subst.
    inversion Hpx as [|? ? ? ? Hq _]; subst.
    vm_compute in Hq. discriminate Hq.
  - intros H. inversion H as [|? ? ? ? _ Hrest]; subst. inversion Hrest.
Qed.

(** * Further properties *)

(** ** Splitting and joining names *)

Lemma has_app (c : ascii) (a b : string) :
  has c (a ++ b)%string = has c a || has c b.
Proof.
  induction a as [|d a IH]; simpl; [reflexivity|].
  now rewrite IH, orb_assoc.
Qed.

Lemma split_nonempty (sep : ascii) (s : string) : split sep s <> [].
Proof.
  destruct s as [|c r]; simpl; [discriminate|].
  destruct (Ascii.eqb c sep); [discriminate|].
  destruct (split sep r); discriminate.
Qed.

Lemma split_no_sep (sep : ascii) (s : string) :
  has sep s = false -> split sep s = [s].
Proof.
  induction s as [|c r IH]; simpl; [reflexivity|].
  intros H. apply orb_false_iff in H as [Hc Hr].
  now rewrite Hc, (IH Hr).
Qed.

Lemma split_app (sep : ascii) (a b : string) :
  split sep (a ++ String sep b)%string = split sep a ++ split sep b.
Proof.
  induction a as [|c a IH]; simpl.
  - now rewrite Ascii.eqb_refl.
  - destruct (Ascii.eqb c sep); [now rewrite IH|].
    rewrite IH. destruct (split sep a) as [|h t] eqn:E; [|reflexivity].
    now apply split_nonempty in E.
Qed.

(** Joining the pieces with the separator gives the string back. *)
Lemma concat_split (sep : ascii) (s : string) :
  String.concat (String sep "") (split sep s) = s.
Proof.
  induction s as [|c r IH]; [reflexivity|]. simpl.
  destruct (Ascii.eqb_spec c sep) as [->|Hc].
  - destruct (split sep r) as [|h t] eqn:E;
      [now apply split_nonempty in E|].
    cbn [String.concat]. cbn [String.concat] in IH. now rewrite IH.
  - destruct (split sep r) as [|h t] eqn:E;
      [now apply split_nonempty in E|].
    cbn [String.concat] in *. destruct t; simpl; now rewrite <- IH.
Qed.

Lemma split_pieces (sep : ascii) (s : string) :
  Forall (fun piece => has sep piece = false) (split sep s).
Proof.
  induction s as [|c r IH]; simpl; [now repeat constructor|].
  destruct (Ascii.eqb c sep) eqn:Hc; [now constructor|].
  destruct (split sep r) as [|h t]; [now repeat constructor; simpl; rewrite Hc|].
  inversion IH; subst. constructor; [|assumption].
  simpl. now rewrite Hc.
Qed.

Lemma last_component_no_sep (path : string) :
  has os_sep (last_component path) = false.
Proof.
  unfold last_component.
  pose proof (split_pieces os_sep path) as H.
  pose proof (split_nonempty os_sep path) as Hne.
  rewrite Forall_forall in H. apply H.
  destruct (exists_last Hne) as (l & x & ->).
  rewrite last_last. apply in_or_app. right. now left.
Qed.

Lemma last_component_app (dir name : string) :
  has os_sep name = false ->
  last_component (dir ++ String os_sep name)%string = name.
Proof.
  intros H. unfold last_component.
  now rewrite split_app, (split_no_sep _ _ H), last_last.
Qed.

Lemma tif_name_ext (stem ext : string) :
  has "."%char ext = false ->
  tif_name (stem ++ String "."%char ext) = (stem ++ ".tif")%string.
Proof.
  intros H. unfold tif_name.
  rewrite split_app, (split_no_sep _ _ H), removelast_last.
  now rewrite (concat_split "."%char).
Qed.

Lemma prefix_app (a b : string) : String.prefix a (a ++ b)%string = true.
Proof.
  induction a as [|c a IH]; cbn [String.prefix append]; [now destruct b|].
  destruct (ascii_dec c c); [assumption|congruence].
Qed.

Lemma path_join_prefix (a b : string) :
  has os_sep b = false -> String.prefix a (path_join a b) = true.
Proof.
  intros H. unfold path_join.
  assert (Hb : String.prefix "/" b = false).
  { destruct b as [|c b]; [reflexivity|]. cbn [has] in H.
    apply orb_false_iff in H as [Hc _]. cbn [String.prefix].
    destruct (ascii_dec "/" c) as [<-|]; [discriminate Hc|reflexivity]. }
  rewrite Hb.
  destruct ((a =? "") || isin "/" (substring (String.length a - 1) 1 a));
    apply prefix_app.
Qed.

(** ** The predict loop *)

(** The file written for an image is named after the last component of
    its path, with the last extension replaced by [.tif]: the directory and
    the extension of the source play no part, so two images that differ
    in those only are written to one file. *)
Theorem predict_output_name
        (prediction_output dir dir' stem ext ext' : string)
        (image image' : array3) (elapsed : Q) :
  has os_sep stem = false ->
  has os_sep ext = false -> has "."%char ext = false ->
  has os_sep ext' = false -> has "."%char ext' = false ->
  predict_loop prediction_output
    [Ok {| prediction :=
             [(image, (dir ++ "/" ++ stem ++ "." ++ ext)%string);
              (image', (dir' ++ "/" ++ stem ++ "." ++ ext')%string)];
           predict_elapsed := elapsed |}]
  = Ok {| predict_time_list := [(elapsed / inject_Z 2)%Q];
          tif_saved :=
            [(path_join prediction_output (stem ++ ".tif"), image);
             (path_join prediction_output (stem ++ ".tif"), image')] |}.
Proof.
  intros Hs He He' Hf Hf'.
  assert (Hname : forall d e,
             has os_sep e = false -> has "."%char e = false ->
             tif_name (last_component (d ++ "/" ++ stem ++ "." ++ e)%string)
             = (stem ++ ".tif")%string).
  { intros d e H1 H2.
    change (d ++ "/" ++ stem ++ "." ++ e)%string
      with (d ++ String os_sep (stem ++ String "."%char e))%string.
    rewrite last_component_app.
    - now apply tif_name_ext.
    - rewrite has_app. cbn [has]. now rewrite Hs, H1. }
  unfold predict_loop. cbn [while_try predict_body prediction List.length
                            predict_elapsed predict_time_list tif_saved
                            map app fst snd].
  now rewrite (Hname dir ext He He'), (Hname dir' ext' Hf Hf').
Qed.

Lemma predict_output_name_witness :
  predict_loop "out"
    [Ok {| prediction := [(image_1_prediction, "a/cell.png");
                          (image_1_prediction, "b/cell.jpg")];
           predict_elapsed := 1%Q |}]
  = Ok {| predict_time_list := [(1 / inject_Z 2)%Q];
          tif_saved := [("out/cell.tif", image_1_prediction);
                        ("out/cell.tif", image_1_prediction)] |}.
Proof.
  exact (predict_output_name "out" "a" "b" "cell" "png" "jpg"
           image_1_prediction image_1_prediction 1%Q
           eq_refl eq_refl eq_refl eq_refl eq_refl).
Defined.

(** A source name without a dot loses its whole name: every such image is
    written to [.tif] in the output directory. *)
Theorem predict_name_without_extension
        (prediction_output dir name : string) (image : array3) (elapsed : Q) :
  has os_sep name = false ->
  has "."%char name = false ->
  predict_loop prediction_output
    [Ok {| prediction := [(image, (dir ++ "/" ++ name)%string)];
           predict_elapsed := elapsed |}]
  = Ok {| predict_time_list := [(elapsed / inject_Z 1)%Q];
          tif_saved := [(path_join prediction_output ".tif", image)] |}.
Proof.
  intros Hs Hd.
  unfold predict_loop. cbn [while_try predict_body prediction List.length
                            predict_elapsed predict_time_list tif_saved
                            map app fst snd].
  change (dir ++ "/" ++ name)%string with (dir ++ String os_sep name)%string.
  rewrite (last_component_app dir name Hs).
  unfold tif_name. now rewrite (split_no_sep _ _ Hd).
Qed.

Lemma predict_name_without_extension_witness :
  predict_loop "out"
    [Ok {| prediction := [(image_1_prediction, "slides/cell")];
           predict_elapsed := 1%Q |}]
  = Ok {| predict_time_list := [(1 / inject_Z 1)%Q];
          tif_saved := [("out/.tif", image_1_prediction)] |}.
Proof.
  exact (predict_name_without_extension "out" "slides" "cell"
           image_1_prediction 1%Q eq_refl eq_refl).
Defined.

Lemma while_try_steps {V R : Type} (body : V -> R -> V * option exn)
      (step : V -> R -> V) (rs : list R) :
  Forall (fun r => forall v, body v r = (step v r, None)) rs ->
  forall v, while_try body v (map Ok rs) = Ok (fold_left step rs v).
Proof.
  induction 1 as [|r rs Hr _ IH]; intros v; simpl; [reflexivity|].
  rewrite Hr. apply IH.
Qed.

Lemma while_try_body_fault {V R : Type} (body : V -> R -> V * option exn)
      (pre rest : list (result R)) (r : R) (e : exn) :
  (forall v, body v r = (v, Some e)) ->
  forall v, while_try body v (pre ++ Ok r :: rest) = while_try body v pre.
Proof.
  intros Hr. induction pre as [|[r'|e'] pre IH]; intros v; simpl.
  - now rewrite Hr.
  - destruct (body v r') as [v' [e''|]]; [reflexivity|apply IH].
  - reflexivity.
Qed.

(** While the batches have images and [sess.run] succeeds, every image of
    every batch is written, in order, and one time is recorded per batch.
    A batch without image ends the loop like the end of the data: what
    follows it is never read. *)
Theorem predict_loop_saves
        (prediction_output : string) (runs : list predict_run)
        (rest : list (result predict_run)) (elapsed : Q) :
  Forall (fun r => prediction r <> []) runs ->
  exists v,
    predict_loop prediction_output (map Ok runs) = Ok v
    /\ map snd (tif_saved v) = flat_map (fun r => map fst (prediction r)) runs
    /\ List.length (predict_time_list v) = List.length runs
    /\ predict_loop prediction_output
         (map Ok runs
          ++ Ok {| prediction := []; predict_elapsed := elapsed |} :: rest)
       = Ok v.
Proof.
  intros Hruns. unfold predict_loop.
  set (step := fun (v : predict_vars) (r : predict_run) =>
         {| predict_time_list :=
              predict_time_list v ++
              [(predict_elapsed r
                / inject_Z (Z.of_nat (List.length (prediction r))))%Q];
            tif_saved :=
              tif_saved v ++
              map (fun p => (path_join prediction_output
                                       (tif_name (last_component (snd p))),
                             fst p))
                  (prediction r) |}).
  assert (Hstep : Forall (fun r => forall v,
                              predict_body prediction_output v r
                              = (step v r, None)) runs).
  { eapply Forall_impl; [|exact Hruns]. intros r Hr v.
    unfold predict_body. destruct (prediction r) eqn:E; [congruence|].
    unfold step. now rewrite E. }
  assert (Hfold : forall rs v,
             map snd (tif_saved (fold_left step rs v))
             = map snd (tif_saved v)
               ++ flat_map (fun r => map fst (prediction r)) rs
             /\ List.length (predict_time_list (fold_left step rs v))
                = (List.length (predict_time_list v) + List.length rs)%nat).
  { induction rs as [|r rs IH]; intros v; simpl.
    - now rewrite app_nil_r, Nat.add_0_r.
    - destruct (IH (step v r)) as [IH1 IH2]. rewrite IH1, IH2. split.
      + unfold step at 1. cbn [tif_saved].
        rewrite map_app, map_map, <- app_assoc. reflexivity.
      + unfold step at 1. cbn [predict_time_list].
        rewrite length_app. simpl. lia. }
  eexists. split; [apply (while_try_steps _ step); exact Hstep|].
  destruct (Hfold runs {| predict_time_list := []; tif_saved := [] |})
    as [H1 H2].
  split; [exact H1|]. split; [exact H2|].
  rewrite while_try_body_fault with (e := ZeroDivisionError).
  - apply (while_try_steps _ step); exact Hstep.
  - reflexivity.
Qed.

Lemma predict_loop_saves_witness :
  exists v,
    predict_loop "out"
      [Ok {| prediction := [(image_1_prediction, "a/x.png")];
             predict_elapsed := 1%Q |}] = Ok v
    /\ map snd (tif_saved v) = [image_1_prediction].
Proof.
  destruct (predict_loop_saves
              "out"
              [{| prediction := [(image_1_prediction, "a/x.png")];
                  predict_elapsed := 1%Q |}] [] 0%Q)
    as (v & Hv & Hs & _).
  - repeat constructor. discriminate.
  - exists v. split; assumption.
Defined.

(** ** The test loop and its metric lists *)

Lemma mapM_length {A B : Type} (f : A -> result B) (l : list A) (l' : list B) :
  mapM f l = Ok l' -> List.length l' = List.length l.
Proof.
  intros H. apply mapM_Forall2 in H. symmetry.
  eapply Forall2_length; eassumption.
Qed.

Lemma test_body_aligned (v : test_vars) (r : test_run) :
  same_pixels r -> aligned v -> aligned (fst (test_body v r)).
Proof.
  unfold aligned, test_body, same_pixels, channel1_flat. intros Hr Hv.
  destruct (mapM _ (List.concat (List.concat (img r)))) as [probabilities|e]
    eqn:Hp; [|exact Hv].
  apply mapM_length in Hp.
  assert (Forall2 (fun p t => List.length p = List.length t)
                  (all_probs v ++ [probabilities])
                  (all_true v ++ [flatten (truth r)])).
  { apply Forall2_app; [exact Hv|]. constructor; [congruence|constructor]. }
  destruct (List.length (img r)); assumption.
Qed.

Lemma while_try_invariant {V R : Type} (body : V -> R -> V * option exn)
      (P : V -> Prop) (Q : R -> Prop) (sess_run : list (result R)) :
  (forall v r, Q r -> P v -> P (fst (body v r))) ->
  Forall (fun x => match x with Ok r => Q r | Raise _ => True end) sess_run ->
  forall v, P v -> exists v', while_try body v sess_run = Ok v' /\ P v'.
Proof.
  intros Hbody Hruns. induction Hruns as [|[r|e] rest Hr _ IH]; intros v Hv;
    simpl.
  - now exists v.
  - specialize (Hbody v r Hr Hv).
    destruct (body v r) as [v' [e|]]; simpl in Hbody.
    + now exists v'.
    + now apply IH.
  - now exists v.
Qed.

(** Whatever the session delivers, and wherever the loop stops, the test
    loop returns as many probability vectors as ground-truth vectors; when
    each batch has as many probability pixels as ground-truth pixels, the
    vectors match in length pair by pair, as the metrics need. *)
Theorem test_loop_aligned (sess_run : list (result test_run)) :
  Forall (fun x => match x with Ok r => same_pixels r | Raise _ => True end)
         sess_run ->
  exists v, test_loop sess_run = Ok v /\ aligned v.
Proof.
  intros Hruns. unfold test_loop.
  apply (while_try_invariant test_body aligned same_pixels).
  - intros v r. apply test_body_aligned.
  - exact Hruns.
  - constructor.
Qed.

Lemma test_loop_aligned_witness :
  exists v, test_loop [Ok mixed_batch; Raise (IOError "disk")] = Ok v
            /\ aligned v.
Proof.
  apply (test_loop_aligned [Ok mixed_batch; Raise (IOError "disk")]).
  repeat constructor.
Defined.

(** The three per-entry lists are built with one filter: whenever two of
    them are computed they have the same length, one value per entry of
    [all_true] that passes the test. *)
Theorem per_image_lists_aligned
        (metric metric' : list Z -> list Q -> result Q)
        (f f' : list Q -> list Q) (v : test_vars) (l l' : list Q) :
  List.length (all_probs v) = List.length (all_true v) ->
  per_image metric f v = Ok l ->
  per_image metric' f' v = Ok l' ->
  List.length l = List.length l'
  /\ List.length l
     = List.length (filter (fun a => (n_unique a =? 2)%nat) (all_true v)).
Proof.
  unfold per_image. intros Hlen H H'.
  apply mapM_length in H. apply mapM_length in H'.
  split; [congruence|]. rewrite H.
  clear - Hlen. revert Hlen. generalize (all_probs v).
  induction (all_true v) as [|a t IH]; intros [|p ps] Hlen; simpl in *;
    try reflexivity; try discriminate.
  destruct (n_unique a =? 2)%nat; simpl; rewrite IH; try reflexivity; lia.
Qed.

Lemma per_image_lists_aligned_witness :
  List.length [inject_Z 2] = List.length [inject_Z 2]
  /\ List.length [inject_Z 2]
     = List.length (filter (fun a => (n_unique a =? 2)%nat)
                           [[0; 0]; [0; 1]]%Z).
Proof.
  exact (per_image_lists_aligned
           pixels_scored needs_both_classes ge_half (fun b => b)
           {| all_probs := [[1#2; 1#3]; [1#2; 1#3]]%Q;
              all_true := [[0; 0]; [0; 1]]%Z;
              test_time_list := [] |}
           [inject_Z 2] [inject_Z 2] eq_refl eq_refl eq_refl).
Defined.

(** ** The training loop *)

Lemma every_ok (i n : Z) :
  n <> 0%Z -> every i n = Ok (((i mod n =? 0) || (i =? 1))%Z).
Proof.
  intros Hn. unfold every. now destruct (Z.eqb_spec n 0).
Qed.

Lemma mapM_map {A B : Type} (f : A -> result B) (g : A -> B) (l : list A) :
  (forall x, In x l -> f x = Ok (g x)) -> mapM f l = Ok (map g l).
Proof.
  induction l as [|x l IH]; intros H; simpl; [reflexivity|].
  rewrite (H x (or_introl eq_refl)). simpl.
  rewrite IH; [reflexivity|]. intros y Hy. apply H. now right.
Qed.

Section TrainLoop.

Variables (ckpt_exists : bool).
Variables (checkpoint_path save_checkpoint_folder save_summary_folder : string).
Variables (log_every_n_steps save_summary_steps save_checkpoint_steps : Z).

(** With at least one step and intervals other than zero the training
    branch runs to its end.  Inside the loop a checkpoint is saved at step
    [i] exactly when both the summary and the checkpoint are due ([i] is a
    multiple of both intervals, or [i] is 1): the checkpoint test sits
    inside the summary test.  After the loop a summary and a checkpoint
    are written for the last step in any case. *)
Theorem train_checkpoint_schedule (last : nat) :
  log_every_n_steps <> 0%Z ->
  save_summary_steps <> 0%Z ->
  save_checkpoint_steps <> 0%Z ->
  exists steps,
    train_branch ckpt_exists checkpoint_path save_checkpoint_folder
                 save_summary_folder (S last) log_every_n_steps
                 save_summary_steps save_checkpoint_steps
    = Ok ([MakeDirs save_checkpoint_folder; MakeDirs save_summary_folder]
          ++ (if ckpt_exists then [Restore checkpoint_path] else [])
          ++ steps
          ++ [AddSummary (Z.of_nat last);
              SaveCheckpoint (CHECKPOINT_PATH save_checkpoint_folder)
                             (Z.of_nat last)])
    /\ (forall i,
           In (TrainStep i) steps <-> (0 <= i <= Z.of_nat last)%Z)
    /\ (forall path i,
           In (SaveCheckpoint path i) steps
           <-> path = CHECKPOINT_PATH save_checkpoint_folder
               /\ (0 <= i <= Z.of_nat last)%Z
               /\ ((i mod save_summary_steps = 0)%Z \/ i = 1%Z)
               /\ ((i mod save_checkpoint_steps = 0)%Z \/ i = 1%Z)).
Proof.
  intros Hl Hs Hc.
  set (due := fun i n => ((i mod n =? 0) || (i =? 1))%Z).
  set (g := fun i : Z =>
         [TrainStep i]
         ++ (if due i log_every_n_steps then [LogStep i] else [])
         ++ (if due i save_summary_steps then [AddSummary i] else [])
         ++ (if due i save_summary_steps && due i save_checkpoint_steps
             then [SaveCheckpoint (CHECKPOINT_PATH save_checkpoint_folder) i]
             else [])).
  assert (Hstep : forall i,
             train_step save_checkpoint_folder log_every_n_steps
                        save_summary_steps save_checkpoint_steps i
             = Ok (g i)).
  { intros i. unfold train_step, g.
    rewrite (every_ok i _ Hl), (every_ok i _ Hs). cbn [bind]. fold (due i save_summary_steps).
    destruct (due i save_summary_steps); cbn [bind andb].
    - now rewrite (every_ok i _ Hc).
    - reflexivity. }
  set (idx := map Z.of_nat (seq 0 (S last))).
  assert (Hidx : forall i, In i idx <-> (0 <= i <= Z.of_nat last)%Z).
  { intros i. unfold idx. rewrite in_map_iff. split.
    - intros (n & <- & Hn). apply in_seq in Hn. lia.
    - intros Hi. exists (Z.to_nat i). split; [lia|]. apply in_seq. lia. }
  assert (Hdue : forall i n, due i n = true <-> (i mod n = 0)%Z \/ i = 1%Z).
  { intros i n. unfold due. rewrite orb_true_iff, !Z.eqb_eq. reflexivity. }
  exists (List.concat (map g idx)). split; [|split].
  - unfold train_branch. fold idx.
    rewrite (mapM_map _ g) by (intros; apply Hstep). reflexivity.
  - intros i. rewrite in_concat. split.
    + intros (l & Hl' & Hin). apply in_map_iff in Hl' as (j & <- & Hj).
      unfold g in Hin. cbn [app] in Hin. destruct Hin as [Heq|Hin].
      * injection Heq as <-. now apply Hidx.
      * exfalso.
        repeat (apply in_app_or in Hin as [Hin|Hin]);
          repeat match type of Hin with
                 | In _ (if ?b then _ else _) => destruct b
                 end;
          simpl in Hin; intuition discriminate.
    + intros Hi. exists (g i). split.
      * apply in_map. now apply Hidx.
      * now left.
  - intros path i. rewrite in_concat. split.
    + intros (l & Hl' & Hin). apply in_map_iff in Hl' as (j & <- & Hj).
      unfold g in Hin. cbn [app] in Hin. destruct Hin as [Heq|Hin];
        [discriminate|].
      apply in_app_or in Hin as [Hin|Hin];
        [destruct (due j log_every_n_steps); simpl in Hin;
         intuition discriminate|].
      apply in_app_or in Hin as [Hin|Hin];
        [destruct (due j save_summary_steps); simpl in Hin;
         intuition discriminate|].
      destruct (due j save_summary_steps) eqn:Ds;
        destruct (due j save_checkpoint_steps) eqn:Dc;
        simpl in Hin; try contradiction.
      destruct Hin as [Heq|[]]. injection Heq as <- <-.
      split; [reflexivity|]. split; [now apply Hidx|].
      split; now apply Hdue.
    + intros (-> & Hi & Hsum & Hck). exists (g i). split.
      * apply in_map. now apply Hidx.
      * unfold g. apply in_or_app. right. apply in_or_app. right.
        apply in_or_app. right.
        apply Hdue in Hsum. apply Hdue in Hck. rewrite Hsum, Hck. now left.
Qed.

(** An interval of zero makes the first step raise: the [%] of the
    logging test, of the summary test, or of the checkpoint test (step 0
    is due for a summary) divides by zero. *)
Theorem train_zero_interval (last : nat) :
  log_every_n_steps = 0%Z \/ save_summary_steps = 0%Z
  \/ save_checkpoint_steps = 0%Z ->
  train_branch ckpt_exists checkpoint_path save_checkpoint_folder
               save_summary_folder (S last) log_every_n_steps
               save_summary_steps save_checkpoint_steps
  = Raise ZeroDivisionError.
Proof.
  intros H. unfold train_branch. cbn [seq map mapM Z.of_nat].
  assert (Hstep : train_step save_checkpoint_folder log_every_n_steps
                             save_summary_steps save_checkpoint_steps 0
                  = Raise ZeroDivisionError).
  { unfold train_step, every.
    destruct (Z.eqb_spec log_every_n_steps 0) as [_|Hl]; [reflexivity|].
    cbn [bind].
    destruct (Z.eqb_spec save_summary_steps 0) as [_|Hs]; [reflexivity|].
    cbn [bind]. rewrite Z.mod_0_l by assumption. cbn [Z.eqb orb bind].
    destruct (Z.eqb_spec save_checkpoint_steps 0) as [_|Hc]; [reflexivity|].
    intuition congruence. }
  now rewrite Hstep.
Qed.

End TrainLoop.

Lemma train_checkpoint_schedule_witness :
  exists steps,
    train_branch false "ckpt" "ckpts" "sums" 301 100 150 100
    = Ok ([MakeDirs "ckpts"; MakeDirs "sums"] ++ [] ++ steps
          ++ [AddSummary 300; SaveCheckpoint (CHECKPOINT_PATH "ckpts") 300])
    /\ ~ In (SaveCheckpoint (CHECKPOINT_PATH "ckpts") 100) steps
    /\ In (SaveCheckpoint (CHECKPOINT_PATH "ckpts") 300) steps.
Proof.
  destruct (train_checkpoint_schedule
              false "ckpt" "ckpts" "sums" 100 150 100 300)
    as (steps & Hrun & _ & Hck); try discriminate.
  exists steps. split; [exact Hrun|]. split.
  - intros Hin. apply Hck in Hin as (_ & _ & [H|H] & _); discriminate H.
  - apply Hck. repeat split; try lia; now left.
Defined.

Lemma train_zero_interval_witness :
  train_branch false "ckpt" "ckpts" "sums" 10 100 100 0
  = Raise ZeroDivisionError.
Proof.
  apply (train_zero_interval false "ckpt" "ckpts" "sums" 100 100 0 9).
  right. right. reflexivity.
Defined.

(** ** The corpus *)



(** The number of files read in parallel lies between 1 and 50, and is a
    tenth of the corpus in between. *)
Theorem cycle_length_bounds (image_path_list : list string) :
  (1 <= cycle_length image_path_list <= 50)%Z
  /\ ((10 <= List.length image_path_list < 510)%nat ->
      cycle_length image_path_list
      = (Z.of_nat (List.length image_path_list) / 10)%Z).
Proof.
  unfold cycle_length.
  pose proof (Z.div_pos (Z.of_nat (List.length image_path_list)) 10
                        ltac:(lia) ltac:(lia)) as Hpos.
  split; [lia|]. intros [Hlo Hhi].
  assert (1 <= Z.of_nat (List.length image_path_list) / 10 < 51)%Z.
  { split.
    - apply Z.div_le_lower_bound; lia.
    - apply Z.div_lt_upper_bound; lia. }
  lia.
Qed.

(** With [epochs] given, every epoch counts the full batches only: the
    steps consume at most [epochs] times the corpus, and less than one
    batch per epoch is left out.  A batch size of zero raises. *)
Theorem steps_from_epochs_bounds
        (epochs number_of_steps batch_size : Z) (image_path_list : list string) :
  (0 <= epochs)%Z ->
  (0 < batch_size)%Z ->
  exists steps,
    steps_from_epochs (Some epochs) number_of_steps image_path_list batch_size
    = Ok steps
    /\ (steps * batch_size
        <= epochs * Z.of_nat (List.length image_path_list))%Z
    /\ (epochs * Z.of_nat (List.length image_path_list)
        <= steps * batch_size + epochs * (batch_size - 1))%Z
    /\ steps_from_epochs (Some epochs) number_of_steps image_path_list 0
       = Raise ZeroDivisionError.
Proof.
  intros He Hb. unfold steps_from_epochs.
  destruct (Z.eqb_spec batch_size 0) as [|_]; [lia|].
  eexists. split; [reflexivity|].
  set (n := Z.of_nat (List.length image_path_list)).
  assert (Hn : (0 <= n)%Z) by (unfold n; lia).
  rewrite Z.quot_div_nonneg by lia.
  pose proof (Z.div_mod n batch_size ltac:(lia)) as Hdm.
  pose proof (Z.mod_pos_bound n batch_size Hb) as Hm.
  split; [|split; [|reflexivity]]; nia.
Qed.

Lemma steps_from_epochs_bounds_witness :
  exists steps,
    steps_from_epochs (Some 3%Z) 5000 ["a"; "b"; "c"; "d"; "e"] 2 = Ok steps
    /\ (steps * 2 <= 3 * 5)%Z.
Proof.
  destruct (steps_from_epochs_bounds 3 5000 2 ["a"; "b"; "c"; "d"; "e"])
    as (steps & H & Hle & _); try lia.
  exists steps. split; [exact H|exact Hle].
Defined.


Lemma cycle_length_bounds_witness :
  cycle_length (repeat "slide.png" 20) = 2%Z.
Proof.
  apply (proj2 (cycle_length_bounds (repeat "slide.png" 20))).
  simpl. lia.
Defined.

(** ** Binarized truth and prediction *)

Lemma strict_max_argmax (px : list Q) (i : nat) :
  strict_max px i -> argmax px = Some i.
Proof.
  intros (x & Hx & Hothers).
  destruct (argmax_defined px) as [j Hj].
  { assert (i < List.length px)%nat by (apply nth_error_Some; congruence).
    lia. }
  rewrite Hj. f_equal.
  apply (first_max_unique px); [now apply argmax_first_max|].
  exists x. split; [assumption|]. split.
  - intros k y Hy. destruct (Nat.eq_dec k i) as [->|Hk].
    + replace y with x by congruence. apply Qle_refl.
    + apply Qlt_le_weak. eapply Hothers; eassumption.
  - intros k y Hk Hy. apply (Hothers k); [lia|assumption].
Qed.


Lemma small_index (i : nat) :
  (i < 2)%nat -> Z.of_nat i = if (i =? 1)%nat then 1%Z else 0%Z.
Proof. intros H. destruct i as [|[|i]]; try reflexivity; lia. Qed.

(** With two or three classes and a pixel whose largest score is not
    tied, the binarized prediction is 1 where class 1 wins and 0
    elsewhere: class 2 is folded into the background. *)
Theorem binarized_network_binary (n_classes : nat) (px : list Q) (i : nat) :
  n_classes = 2%nat \/ n_classes = 3%nat ->
  List.length px = n_classes ->
  strict_max px i ->
  binarized_network n_classes px = Ok (if (i =? 1)%nat then 1%Z else 0%Z).
Proof.
  intros Hn Hlen Hmax. pose proof (strict_max_argmax px i Hmax) as Harg.
  destruct Hmax as (x & Hx & Hothers).
  assert (Hi : (i < n_classes)%nat).
  { rewrite <- Hlen. apply nth_error_Some. congruence. }
  unfold binarized_network, tf_argmax. rewrite Harg.
  destruct Hn as [->| ->]; cbn [Nat.eqb option_map of_option bind].
  - f_equal. now apply small_index.
  - destruct px as [|p0 [|p1 [|p2 [|p3 px]]]]; try discriminate Hlen.
    cbn [channel nth_error of_option bind]. f_equal.
    destruct i as [|[|[|i]]]; try lia; cbn [Nat.eqb].
    + now destruct (negb (Qle_bool p2 p1)).
    + assert (Hlt : (p2 < p1)%Q).
      { injection Hx as <-. apply (Hothers 2%nat); [lia|reflexivity]. }
      apply Qlt_le_weak, Qle_bool_iff in Hlt. now rewrite Hlt.
    + assert (Hlt : (p1 < p2)%Q).
      { injection Hx as <-. apply (Hothers 1%nat); [lia|reflexivity]. }
      destruct (Qle_bool p2 p1) eqn:E; [|reflexivity].
      apply Qle_bool_iff in E. exfalso. now apply (Qlt_not_le _ _ Hlt).
Qed.

Lemma binarized_network_binary_witness :
  binarized_network 3 [1#10; 3#10; 6#10]%Q = Ok 0%Z.
Proof.
  apply (binarized_network_binary 3 [1#10; 3#10; 6#10]%Q 2);
    [now right|reflexivity|].
  exists (6#10)%Q. split; [reflexivity|].
  intros [|[|[|j]]] y Hj Hy; try lia; simpl in Hy;
    try discriminate; try (destruct j; discriminate);
    injection Hy as <-; reflexivity.
Defined.





(** ** The reassembly loop: labels and rejected tiles *)

Lemma get_in_shape {A : Type} (h w c : nat) (a : list (list (list A)))
      (r k : nat) (px : list A) :
  shape3 h w c a -> get a r k = Some px -> (r < h)%nat /\ (k < w)%nat.
Proof.
  intros Hs. apply shape3_iff in Hs as (Hh & Hrows). unfold get.
  destruct (nth_error a r) as [row|] eqn:Hrow; [|discriminate].
  intros Hpx. destruct (Hrows r row Hrow) as [Hw _]. split.
  - rewrite <- Hh. apply nth_error_Some. congruence.
  - rewrite <- Hw. apply nth_error_Some. congruence.
Qed.






(** A pixel that no tile has reached, its sums still zero, is saved as
    class 0 by either flush, whatever its counts. *)
Theorem uncovered_pixel_is_background
        (h w c : nat) (a : accumulator) (r k : nat) (m : list Q) :
  shape3 h w c (mask a) ->
  shape3 h w c (division_mask a) ->
  (0 < c)%nat ->
  get (mask a) r k = Some m ->
  Forall (fun x => (x == 0)%Q) m ->
  exists raw,
    flush_on_change a
    = Ok (normalise a, (large_image_output_name a, astype_uint8 (stack3 raw)))
    /\ flush_end_of_batch a
       = Ok (normalise a,
             (large_image_output_name a,
              astype_uint8 (stack3 (threshold raw))))
    /\ get (astype_uint8 (stack3 raw)) r k = Some [0; 0; 0]%Z
    /\ get (astype_uint8 (stack3 (threshold raw))) r k = Some [0; 0; 0]%Z.
Proof.
  intros Hm Hd Hc Hgm Hzero.
  destruct (get_in_shape h w c _ r k m Hm Hgm) as [Hr Hk].
  destruct (flush_pixels h w c a Hm Hd Hc)
    as (raw & _ & Hchange & Hbatch & Hpx).
  destruct (Hpx r k Hr Hk) as (m' & d & i & Hgm' & Hgd & Hmax & Hs1 & Hs2).
  replace m' with m in * by congruence.
  exists raw. repeat (split; [assumption|]).
  assert (Hi : i = 0%nat).
  { destruct Hmax as (x & Hx & _ & Hfirst).
    set (z := zip_with Qdiv m
                (map (fun x => if Qeq_bool x 0 then 1%Q else x) d)) in *.
    assert (Hz : forall j y, nth_error z j = Some y -> (y == 0)%Q).
    { intros j y. unfold z. rewrite nth_error_zip_with.
      destruct (nth_error m j) as [u|] eqn:Hu; [|discriminate].
      destruct (nth_error (map _ d) j) as [v|]; [|discriminate].
      intros [= E]. subst y. rewrite Forall_nth_error_iff in Hzero.
      rewrite (Hzero j u Hu). unfold Qdiv. apply Qmult_0_l. }
    destruct i as [|i]; [reflexivity|]. exfalso.
    destruct (nth_error z 0) as [y|] eqn:Hy.
    - pose proof (Hfirst 0%nat y ltac:(lia) Hy) as Hlt.
      rewrite (Hz _ _ Hy), (Hz _ _ Hx) in Hlt. discriminate Hlt.
    - apply nth_error_None in Hy.
      assert (S i < List.length z)%nat by (apply nth_error_Some; congruence).
      lia. }
  subst i. split; assumption.
Qed.

Lemma uncovered_pixel_is_background_witness :
  exists raw,
    flush_on_change
      {| mask := [[[0; 0]; [3#10; 7#10]]]%Q;
         division_mask := [[[0; 0]; [1; 1]]]%Q;
         large_image_output_name := "out/A.png" |}
    = Ok (normalise
            {| mask := [[[0; 0]; [3#10; 7#10]]]%Q;
               division_mask := [[[0; 0]; [1; 1]]]%Q;
               large_image_output_name := "out/A.png" |},
          ("out/A.png", astype_uint8 (stack3 raw)))
    /\ get (astype_uint8 (stack3 raw)) 0 0 = Some [0; 0; 0]%Z.
Proof.
  destruct (uncovered_pixel_is_background
              1 2 2
              {| mask := [[[0; 0]; [3#10; 7#10]]]%Q;
                 division_mask := [[[0; 0]; [1; 1]]]%Q;
                 large_image_output_name := "out/A.png" |}
              0 0 [0; 0]%Q)
    as (raw & Hchange & _ & Hsaved & _).
  - repeat constructor.
  - repeat constructor.
  - lia.
  - reflexivity.
  - repeat constructor.
  - exists raw. split; [exact Hchange|exact Hsaved].
Defined.







(** A first tile whose path has an empty last component leaves the
    identifier as it started: no accumulator is allocated and the run
    stops with a NameError on the unbound [mask]. *)
Theorem nameless_first_tile_raises
        (padding : string) (n_classes : nat) (large_prediction_output : string)
        (t : tile_input) (after : list tile_input)
        (rest : list (list tile_input)) :
  last_component (image_path t) = "" ->
  large_predict padding n_classes large_prediction_output
                ((t :: after) :: rest)
  = Raise NameError.
Proof.
  intros Hname. unfold large_predict.
  cbn [process_batches process_batch process_tiles]. unfold process_tile.
  rewrite Hname. cbn [curr_image_name String.eqb negb bind live].
  now destruct (coords t).
Qed.

Lemma nameless_first_tile_raises_witness :
  large_predict "SAME" 2 "out"
                [[{| image_path := "slides/";
                     coords := (0, 0)%nat;
                     shapes := (1, 1)%Z;
                     tile := [[[1#10; 9#10]]]%Q |}]]
  = Raise NameError.
Proof.
  apply (nameless_first_tile_raises
           "SAME" 2 "out"
           {| image_path := "slides/";
              coords := (0, 0)%nat;
              shapes := (1, 1)%Z;
              tile := [[[1#10; 9#10]]]%Q |} [] []).
  reflexivity.
Defined.

(** ** The orientation ensemble: batch sizes and the square requirement *)





Lemma index0_length {A : Type} (l : list A) (i : nat) (x : A) :
  index0 l i = Ok x -> (i < List.length l)%nat.
Proof.
  unfold index0. destruct (nth_error l i) eqn:E; [|discriminate].
  intros _. apply nth_error_Some. congruence.
Qed.

(** A tumble mode hands the network eight images for every input image,
    and whatever the batch size the combined prediction is a batch of
    one; it is only formed when the network returns at least eight
    outputs. *)
Theorem tumble_batch_sizes
        (inputs expanded : list image8) (network out : list array3) :
  tumble_inputs inputs = Ok expanded ->
  tumble_prediction network = Ok out ->
  List.length expanded = (8 * List.length inputs)%nat
  /\ (8 <= List.length network)%nat
  /\ List.length out = 1%nat.
Proof.
  intros Hin Hout. split; [|split].
  - unfold tumble_inputs, tf_concat in Hin.
    destruct (same_shapes _); [|discriminate]. injection Hin as <-.
    unfold image8 in *.
    cbn [List.concat]. rewrite !length_app, !length_map.
    cbn [List.length]. lia.
  - unfold tumble_prediction in Hout.
    destruct (index0 (firstn 4 network) 0); [|discriminate].
    destruct (index0 (firstn 4 network) 1); [|discriminate].
    destruct (index0 (firstn 4 network) 2); [|discriminate].
    destruct (index0 (firstn 4 network) 3); [|discriminate].
    destruct (index0 (map flip_left_right (skipn 4 network)) 0);
      [|discriminate].
    destruct (index0 (map flip_left_right (skipn 4 network)) 1);
      [|discriminate].
    destruct (index0 (map flip_left_right (skipn 4 network)) 2);
      [|discriminate].
    destruct (index0 (map flip_left_right (skipn 4 network)) 3) eqn:E;
      [|discriminate].
    apply index0_length in E. rewrite length_map, length_skipn in E. lia.
  - unfold tumble_prediction in Hout.
    repeat match type of Hout with
           | bind ?c _ = _ => destruct c; cbn [bind] in Hout;
                              [|discriminate]
           end.
    injection Hout as <-.
    match goal with
    | |- List.length (reduce_mean0 ?l) = _ => now destruct l
    end.
Qed.

Lemma tumble_batch_sizes_witness :
  exists expanded out,
    tumble_inputs [image_1] = Ok expanded
    /\ tumble_prediction (map convert_image_dtype expanded) = Ok out
    /\ List.length expanded = 8%nat
    /\ List.length out = 1%nat.
Proof.
  destruct (tumble_inputs [image_1]) as [expanded|e] eqn:Hin;
    [|vm_compute in Hin; discriminate].
  destruct (tumble_prediction (map convert_image_dtype expanded))
    as [out|e] eqn:Hout.
  - exists expanded, out.
    destruct (tumble_batch_sizes [image_1] expanded
                                 (map convert_image_dtype expanded) out
                                 Hin Hout)
      as (Hexp & _ & Hlen).
    repeat split; assumption.
  - exfalso. vm_compute in Hin. injection Hin as <-.
    vm_compute in Hout. discriminate.
Defined.

(** ** What [main] never does *)

Lemma train_step_effects (save_checkpoint_folder : string)
      (log_every_n_steps save_summary_steps save_checkpoint_steps i : Z)
      (effects : list effect) (name : string) (image : image8) :
  train_step save_checkpoint_folder log_every_n_steps save_summary_steps
             save_checkpoint_steps i
  = Ok effects ->
  ~ In (SaveImage name image) effects.
Proof.
  unfold train_step.
  destruct (every i log_every_n_steps) as [log|]; [|discriminate].
  destruct (every i save_summary_steps) as [summary|]; [|discriminate].
  cbn [bind].
  destruct (if summary then every i save_checkpoint_steps else Ok false)
    as [checkpoint|]; [|discriminate].
  cbn [bind]. intros [= <-] Hin.
  destruct log, summary, checkpoint; simpl in Hin;
    repeat (destruct Hin as [Hin|Hin]; [discriminate|]); exact Hin.
Qed.

(** No run of the guarded tail of [main] writes a reassembled large
    image, for any mode, checkpoint state and corpus: the mode
    ["large_predict"] is caught by the earlier ['predict' in mode] test
    and runs the plain prediction loop. *)
Theorem main_never_saves_large_image
        (mode : string) (ckpt_exists : bool) (image_path_list : list string)
        (checkpoint_path save_checkpoint_folder save_summary_folder : string)
        (prediction_output large_prediction_output padding : string)
        (n_classes number_of_steps : nat)
        (log_every_n_steps save_summary_steps save_checkpoint_steps : Z)
        (jaccard_score roc_auc_score f1_score : list Z -> list Q -> result Q)
        (test_sess_run : list (result test_run))
        (predict_sess_run : list (result predict_run))
        (image_generator : list (list tile_input))
        (effects : list effect) :
  main_tail mode ckpt_exists image_path_list checkpoint_path
            save_checkpoint_folder save_summary_folder
            prediction_output large_prediction_output padding n_classes
            number_of_steps
            log_every_n_steps save_summary_steps save_checkpoint_steps
            jaccard_score roc_auc_score f1_score
            test_sess_run predict_sess_run image_generator
  = Ok effects ->
  (forall name image, ~ In (SaveImage name image) effects)
  /\ (mode = "large_predict" -> ckpt_exists = true ->
      image_path_list <> [] ->
      exists v,
        predict_loop prediction_output predict_sess_run = Ok v
        /\ effects
           = [MakeDirs prediction_output; Restore checkpoint_path]
             ++ map (fun s => SaveTif (fst s) (snd s)) (tif_saved v)
             ++ [LogTime (predict_time_list v)]).
Proof.
  intros Hrun. split.
  - intros name image Hin. unfold main_tail in Hrun.
    destruct (main_branch mode ckpt_exists image_path_list) eqn:Hbranch.
    + unfold train_branch in Hrun.
      destruct (mapM _ _) as [steps|] eqn:Hsteps; [|discriminate].
      cbn [bind] in Hrun.
      destruct number_of_steps as [|last]; [discriminate|].
      injection Hrun as <-.
      apply mapM_Forall2 in Hsteps.
      destruct Hin as [Hin|[Hin|Hin]]; try discriminate.
      apply in_app_or in Hin as [Hin|Hin];
        [|apply in_app_or in Hin as [Hin|Hin]].
      * destruct ckpt_exists; simpl in Hin; [|contradiction].
        now destruct Hin as [Hin|[]].
      * apply in_concat in Hin as (step & Hstep & Hin).
        apply Forall2_flip in Hsteps.
        apply In_nth_error in Hstep as [n Hn].
        destruct (Forall2_nth_error_l _ _ _ Hsteps n step Hn)
          as (i & _ & Hi).
        eapply train_step_effects; eassumption.
      * simpl in Hin. now destruct Hin as [Hin|[Hin|[]]].
    + unfold test_branch in Hrun.
      repeat match type of Hrun with
             | bind ?c _ = _ => destruct c; cbn [bind] in Hrun;
                                [|discriminate]
             end.
      injection Hrun as <-. simpl in Hin.
      now destruct Hin as [Hin|[Hin|[]]].
    + unfold predict_branch in Hrun.
      destruct (predict_loop _ _) as [v|]; [|discriminate].
      injection Hrun as <-.
      destruct Hin as [Hin|[Hin|Hin]]; try discriminate.
      apply in_app_or in Hin as [Hin|Hin].
      * apply in_map_iff in Hin as (s & Hs & _). discriminate Hs.
      * simpl in Hin. now destruct Hin as [Hin|[]].
    + now apply large_predict_branch_shadowed in Hbranch.
    + injection Hrun as <-. contradiction.
  - intros -> -> Hne. unfold main_tail, main_branch in Hrun.
    destruct image_path_list as [|p l]; [contradiction|].
    cbn in Hrun. unfold predict_branch in Hrun.
    destruct (predict_loop _ _) as [v|]; [|discriminate].
    injection Hrun as <-. now exists v.
Qed.

Lemma main_never_saves_large_image_witness :
  ~ In (SaveImage "large_predictions/slide_1.png" [])
       [MakeDirs "predictions"; Restore "model.ckpt"; LogTime []].
Proof.
  apply (proj1 (main_never_saves_large_image
                  "large_predict" true ["slide_1.png"]
                  "model.ckpt" "checkpoints" "summaries"
                  "predictions" "large_predictions" "VALID" 2 0 1 1 1
                  pixels_scored pixels_scored pixels_scored [] [] []
                  [MakeDirs "predictions"; Restore "model.ckpt"; LogTime []]
                  eq_refl)).
Defined.

(** ** Batches of the tfrecord pipeline *)

Lemma batch_fuel_sizes {A : Type} (size : nat) :
  (0 < size)%nat ->
  forall fuel (l : list A),
    Forall (fun b => (0 < List.length b <= size)%nat)
           (batch_fuel fuel size l).
Proof.
  intros Hsize. induction fuel as [|fuel IH]; intros l; [constructor|].
  destruct l as [|x l]; [constructor|]. cbn [batch_fuel].
  constructor; [|apply IH].
  rewrite length_firstn. cbn [List.length]. lia.
Qed.

Lemma batch_fuel_full {A : Type} (size : nat) :
  forall fuel (l : list A),
    Forall (fun b => List.length b = size)
           (removelast (batch_fuel fuel size l)).
Proof.
  induction fuel as [|fuel IH]; intros l; [constructor|].
  destruct l as [|x l]; [constructor|]. cbn [batch_fuel].
  specialize (IH (skipn size (x :: l))).
  destruct (batch_fuel fuel size (skipn size (x :: l))) as [|b bs] eqn:E;
    [constructor|].
  change (removelast (firstn size (x :: l) :: b :: bs))
    with (firstn size (x :: l) :: removelast (b :: bs)).
  constructor; [|exact IH].
  assert (Hne : skipn size (x :: l) <> []).
  { intros Hnil. rewrite Hnil in E. now destruct fuel. }
  rewrite length_firstn.
  assert (List.length (skipn size (x :: l)) <> 0)%nat
    by (now destruct (skipn size (x :: l))).
  rewrite length_skipn in *. lia.
Qed.

(** In test mode the batches partition the stream: read in order they are
    the parsed records (those passing the filter under [truth_only]), no
    batch is empty or larger than [batch_size], and every batch but the
    last is full. *)
Theorem test_batches_partition {S : Type} (parse_example : S -> sample)
        (truth_only : bool) (batch_size : nat) (records : list S) :
  (0 < batch_size)%nat ->
  exists batches,
    test_dataset parse_example truth_only batch_size records = Ok batches
    /\ List.concat batches
       = (if truth_only then filter predicate (map parse_example records)
          else map parse_example records)
    /\ Forall (fun b => (0 < List.length b <= batch_size)%nat) batches
    /\ Forall (fun b => List.length b = batch_size) (removelast batches).
Proof.
  intros Hsize. unfold test_dataset, tf_batch.
  destruct batch_size as [|n] eqn:E; [lia|]. rewrite <- E in *.
  eexists. split; [reflexivity|]. split; [|split].
  - apply batch_fuel_concat; lia.
  - now apply batch_fuel_sizes.
  - apply batch_fuel_full.
Qed.

Lemma test_batches_partition_witness :
  exists batches,
    test_dataset (fun s => s) false 2
                 [one_positive_pixel; one_hot_pixel; one_positive_pixel]
    = Ok batches
    /\ List.concat batches
       = [one_positive_pixel; one_hot_pixel; one_positive_pixel]
    /\ Forall (fun b => List.length b = 2%nat) (removelast batches).
Proof.
  destruct (test_batches_partition
              (fun s => s) false 2
              [one_positive_pixel; one_hot_pixel; one_positive_pixel])
    as (batches & Hrun & Horder & _ & Hfull); [lia|].
  exists batches. split; [exact Hrun|]. split; [exact Horder|exact Hfull].
Defined.
